(** * LivepushManager (lib/utils/device/live.ts)

    A shallow embedding of the live-update orchestration of the CLI:
    the settle-wait on the device state, the construction of one monitored
    container per service that is built, the translation of file-system
    events into [FileUpdates], and the execution of the actions the diff
    engine asks for.

    The manager is an object with mutable fields; its methods are embedded
    as functions that pass a [World] (the object's fields together with the
    record of every interaction with a collaborator) and complete with a
    value or with a thrown exception. *)

From stdpp Require Import base strings pretty gmap list.

Set Default Proof Using "Type".
Set Warnings "-clear-no-such-hyp".
Open Scope string_scope.
Open Scope nat_scope.
Open Scope list_scope.
Open Scope stdpp_scope.

(** ** Data handed in by the collaborators *)

(** [Status] of ./api: what the device reports. *)
Record ContainerStatus := {
  cs_serviceName : string;
  containerId : string;
}.

Record Status := {
  appState : string;
  st_containers : list ContainerStatus;
}.

(** [BuildTask] of resin-multibuild, the two fields read here. *)
Record BuildTask := {
  bt_serviceName : string;
  dockerfile : option string;
}.

(** [Composition] of resin-compose-parse.  [services] is a JS object;
    [for ... in] enumerates its keys, each once, so the object is kept as
    the list of its (key, value) pairs in enumeration order. *)
Record BuildConfig := { context : string }.
Record Service := { build : option BuildConfig }.
Record Composition := { services : list (string * Service) }.

(** [ContextEvent].  The TypeScript type restricts [type] to three
    literals; at run time it is a string, and [handleFSEvent] has a
    [default] branch for every other value. *)
Record ContextEvent := {
  type : string;
  filename : string;
  serviceName : string;
}.

(** [FileUpdates] of livepush, as built from its three lists. *)
Record FileUpdates := {
  updated : list string;
  added : list string;
  deleted : list string;
}.

(** What a JS computation can throw: an [Error] made by this module, the
    [TypeError] of the runtime on a property read through [undefined] or
    [null], or what a collaborator fails with: the rejection of its
    promise, or the error a watcher emits. *)
Inductive Exn :=
| Error (message : string)
| TypeError (message : string)
| Rejection (reason : string).

Inductive Completion (A : Type) :=
| Return (a : A)
| Throw (e : Exn).
Arguments Return {A} a.
Arguments Throw {A} e.

(** How often do we want to check the device state engine has settled
    (delay in ms). *)
Definition DEVICE_STATUS_SETTLE_CHECK_INTERVAL : nat := 500.

Section Types.

(** [DockerfileActionGroup] of livepush and the Dockerode client are
    opaque to this module. *)
Context {ActionGroup Dockerode : Type}.

(** A [Livepush] instance: the arguments it was constructed with, when
    the constructor has not thrown. *)
Record Livepush := {
  lp_dockerfile : string;
  lp_context : string;
  lp_containerId : string;
  lp_docker : Dockerode;
}.

(** A chokidar watcher: the options it was created with and the listeners
    registered on it, in registration order.  A listener of this module
    only builds a [ContextEvent] and hands it to [handleFSEvent]. *)
Record FSWatcher := {
  cwd : string;
  ignoreInitial : bool;
  listeners : list (string * (string → ContextEvent));
}.

Record MonitoredContainer := {
  mc_context : string;
  livepush : Livepush;
  monitor : FSWatcher;
}.

(** The fields of the manager.  [containers] is a JS object used as a map
    from service names to sessions; service names are taken not to be
    [__proto__] or the name of a property of [Object.prototype]. *)
Record LivepushManager := {
  buildContext : string;
  composition : Composition;
  buildTasks : list BuildTask;
  docker : Dockerode;
  lastDeviceStatus : option Status;
  containers : gmap string MonitoredContainer;
}.

(** Every interaction with a collaborator, in the order it happens.
    [NewLivepush] is an instance made: a constructor that throws makes
    none and records nothing.  A listener attached to a [Livepush]
    instance is kept as the line it logs; the lines these listeners log
    while [performActions] runs are the diff engine's doing and are not
    recorded. *)
Inductive Effect :=
| LogLivepush (msg : string)
| LogDebug (msg : string)
| GetStatus (r : Completion Status)
| Delay (ms : nat)
| NewLivepush (lp : Livepush)
| LivepushOn (lp : Livepush) (event : string) (line : string → string)
| ChokidarWatch (paths : string) (w_cwd : string) (w_ignoreInitial : bool)
| ActionsNeeded (lp : Livepush) (updates : FileUpdates)
    (actions : list ActionGroup)
| PerformActions (lp : Livepush) (updates : FileUpdates)
    (actions : list ActionGroup)
| PerformActionsSettled (lp : Livepush) (updates : FileUpdates)
    (actions : list ActionGroup) (r : Completion unit).

Record World := {
  this : LivepushManager;
  trace : list Effect;
}.

(** A call of [executeActions] that has called [performActions] and is
    suspended at its [await]. *)
Record Execution := {
  ex_actions : list ActionGroup;
  ex_updates : FileUpdates;
  ex_livepush : Livepush;
  ex_serviceName : string;
}.

End Types.

Arguments Livepush : clear implicits.
Arguments MonitoredContainer : clear implicits.
Arguments LivepushManager : clear implicits.
Arguments Effect : clear implicits.
Arguments World : clear implicits.
Arguments Execution : clear implicits.

(** ** The collaborators *)

Class Collaborators (ActionGroup Dockerode : Type) := {
  (** [path.join] of Node. *)
  path_join : string → string → string;
  (** [JSON.stringify] on a [ContextEvent]. *)
  JSON_stringify : ContextEvent → string;
  (** The device API as this module sees it: [getStatus] takes no argument,
      so the API is the sequence of its answers; [getStatus k] is the answer
      to the call made after [k] earlier ones. *)
  getStatus : nat → Completion Status;
  (** [new Livepush(...)]: the error the constructor throws for these
      arguments, [None] when it returns the instance.  Like the answers of
      the diff engine below, this may depend on everything that happened
      before the call. *)
  newLivepush :
    list (Effect ActionGroup Dockerode) → Livepush Dockerode → option Exn;
  (** The diff engine.  Its answers may depend on everything that happened
      before the call. *)
  actionsNeeded :
    list (Effect ActionGroup Dockerode) → Livepush Dockerode → FileUpdates →
    list ActionGroup;
  performActions :
    list (Effect ActionGroup Dockerode) → Livepush Dockerode → FileUpdates →
    list ActionGroup → Completion unit;
}.

(** ** The errors this module throws *)

(** Line 176. *)
Definition unknown_event (kind : string) : Exn :=
  Error ("Unknown event: " +:+ kind).

(** Lines 59-61, 69-71 and 80-82. *)
Definition no_build_task (serviceName : string) : Exn :=
  Error ("Could not find a build task for service: " +:+ serviceName).
Definition no_dockerfile (serviceName : string) : Exn :=
  Error ("Could not detect dockerfile for service: " +:+ serviceName).
Definition no_container (serviceName : string) : Exn :=
  Error ("Could not find container on-device for service: " +:+ serviceName).

(** ** The lines this module logs *)

(** Line 44. *)
Definition waiting_line : string := "Waiting for device state to settle...".
(** Lines 137-139. *)
Definition retrying_line : string :=
  "Device state not settled, retrying in "
  +:+ pretty DEVICE_STATUS_SETTLE_CHECK_INTERVAL +:+ "ms".
(** Lines 187-189. *)
Definition detected_line (serviceName : string) : string :=
  "Detected changes for container " +:+ serviceName +:+ ", updating...".
(** Line 201. *)
Definition restarting_line (serviceName : string) : string :=
  "Restarting container for service " +:+ serviceName.

(** ** handleFSEvent, lines 152-177: the switch on the event type *)

Definition classify (fsEvent : ContextEvent) : Completion FileUpdates :=
  if String.eqb (type fsEvent) "add" then
    Return {| updated := []; added := [filename fsEvent]; deleted := [] |}
  else if String.eqb (type fsEvent) "change" then
    Return {| updated := [filename fsEvent]; added := []; deleted := [] |}
  else if String.eqb (type fsEvent) "unlink" then
    Return {| updated := []; added := []; deleted := [filename fsEvent] |}
  else
    Throw (unknown_event (type fsEvent)).

Section Manager.

Context {ActionGroup Dockerode : Type}.
Context {X : Collaborators ActionGroup Dockerode}.

#[local] Abbreviation World := (World ActionGroup Dockerode).
#[local] Abbreviation Effect := (Effect ActionGroup Dockerode).
#[local] Abbreviation Livepush := (Livepush Dockerode).
#[local] Abbreviation MonitoredContainer := (MonitoredContainer Dockerode).
#[local] Abbreviation LivepushManager := (LivepushManager Dockerode).
#[local] Abbreviation Execution := (Execution ActionGroup Dockerode).

(** *** State and exceptions *)

Definition M (A : Type) : Type := World → Completion A * World.

#[export] Instance M_ret : MRet M := λ A a w, (Return a, w).
#[export] Instance M_bind : MBind M := λ A B f m w,
  match m w with
  | (Return a, w') => f a w'
  | (Throw e, w') => (Throw e, w')
  end.

Definition throw {A} (e : Exn) : M A := λ w, (Throw e, w).

Definition lift {A} (c : Completion A) : M A := λ w, (c, w).

Definition emit (e : Effect) : M unit :=
  λ w, (Return (), {| this := this w; trace := trace w ++ [e] |}).

Definition get_this : M LivepushManager := λ w, (Return (this w), w).
Definition get_trace : M (list Effect) := λ w, (Return (trace w), w).

Definition set_lastDeviceStatus (s : Status) : M unit := λ w,
  (Return (),
   {| this := {| buildContext := buildContext (this w);
                 composition := composition (this w);
                 buildTasks := buildTasks (this w);
                 docker := docker (this w);
                 lastDeviceStatus := Some s;
                 containers := containers (this w) |};
      trace := trace w |}).

Definition set_container (name : string) (c : MonitoredContainer) : M unit :=
  λ w,
  (Return (),
   {| this := {| buildContext := buildContext (this w);
                 composition := composition (this w);
                 buildTasks := buildTasks (this w);
                 docker := docker (this w);
                 lastDeviceStatus := lastDeviceStatus (this w);
                 containers := <[name := c]> (containers (this w)) |};
      trace := trace w |}).

Definition logLivepush (msg : string) : M unit := emit (LogLivepush msg).
Definition logDebug (msg : string) : M unit := emit (LogDebug msg).

(** *** awaitDeviceStateSettle *)

Definition is_GetStatus (e : Effect) : bool :=
  match e with GetStatus _ => true | _ => false end.

(** How many times [getStatus] has been called. *)
Definition calls_made (t : list Effect) : nat :=
  length (List.filter is_GetStatus t).

(** [await this.api.getStatus()] *)
Definition api_getStatus : M Status := λ w,
  let r := getStatus (calls_made (trace w)) in
  (r, {| this := this w; trace := trace w ++ [GetStatus r] |}).

(** Lines 131-140, one pass through the body: [true] when it returns at
    line 134, [false] when it reaches the recursive call of line 141. *)
Definition settle_attempt : M bool :=
  status ← api_getStatus;
  _ ← set_lastDeviceStatus status;
  if String.eqb (appState status) "applied" then mret true
  else
    _ ← logDebug retrying_line;
    _ ← emit (Delay DEVICE_STATUS_SETTLE_CHECK_INTERVAL);
    mret false.

(** The recursion of line 141 has no bound; [fuel] bounds the number of
    passes, and [None] is a run that needs more. *)
Fixpoint awaitDeviceStateSettle (fuel : nat) (w : World)
  : option (Completion unit * World) :=
  match fuel with
  | 0 => None
  | S fuel' =>
    match settle_attempt w with
    | (Return true, w') => Some (Return (), w')
    | (Return false, w') => awaitDeviceStateSettle fuel' w'
    | (Throw e, w') => Some (Throw e, w')
    end
  end.

(** *** init *)

(** The three listeners of lines 110-118. *)
Definition fs_listeners (serviceName : string)
  : list (string * (string → ContextEvent)) :=
  [ ("add", λ path,
       {| filename := path; type := "add"; serviceName := serviceName |});
    ("change", λ path,
       {| filename := path; type := "change"; serviceName := serviceName |});
    ("unlink", λ path,
       {| filename := path; type := "unlink"; serviceName := serviceName |}) ].

(** The [log] closure of lines 85-87 applied to a message. *)
Definition service_log (serviceName msg : string) : string :=
  "[service " +:+ serviceName +:+ "] " +:+ msg.

(** Lines 52-125: the body of the loop for one service. *)
Definition init_service (serviceName : string) (service : Service) : M unit :=
  me ← get_this;
  match List.find (λ task, String.eqb (bt_serviceName task) serviceName)
          (buildTasks me) with
  | None =>
    throw (no_build_task serviceName)
  | Some buildTask =>
    (* We don't need to care about images *)
    match build service with
    | None => mret ()
    | Some service_build =>
      let ctx := path_join (buildContext me) (context service_build) in
      match dockerfile buildTask with
      | None =>
        throw (no_dockerfile serviceName)
      | Some dockerfile =>
        match lastDeviceStatus me with
        | None => throw (TypeError "Cannot read property 'containers' of null")
        | Some status =>
          match List.find
                  (λ container, String.eqb (cs_serviceName container) serviceName)
                  (st_containers status) with
          | None =>
            throw (no_container serviceName)
          | Some container =>
            let lp :=
              {| lp_dockerfile := dockerfile;
                 lp_context := ctx;
                 lp_containerId := containerId container;
                 lp_docker := docker me |} in
            t ← get_trace;
            match newLivepush t lp with
            | Some e => throw e
            | None =>
              _ ← emit (NewLivepush lp);
              _ ← emit (LivepushOn lp "commandExecute" (λ command,
                    service_log serviceName
                      ("Executing command: `" +:+ command +:+ "`")));
              _ ← emit (LivepushOn lp "commandOutput" (λ output,
                    service_log serviceName ("    " +:+ output)));
              _ ← emit (ChokidarWatch "." ctx true);
              let mon :=
                {| cwd := ctx;
                   ignoreInitial := true;
                   listeners := fs_listeners serviceName |} in
              set_container serviceName
                {| livepush := lp; mc_context := ctx; monitor := mon |}
            end
          end
        end
      end
    end
  end.

(** Lines 51-126: [for (const serviceName in this.composition.services)];
    a throw leaves the loop. *)
Fixpoint init_loop (svcs : list (string * Service)) : M unit :=
  match svcs with
  | [] => mret ()
  | (serviceName, service) :: rest =>
    _ ← init_service serviceName service;
    init_loop rest
  end.

Definition init (fuel : nat) (w : World) : option (Completion unit * World) :=
  let w0 := snd (logLivepush waiting_line w) in
  match awaitDeviceStateSettle fuel w0 with
  | None => None
  | Some (Throw e, w1) => Some (Throw e, w1)
  | Some (Return _, w1) =>
    Some (init_loop (services (composition (this w1))) w1)
  end.

(** *** executeActions *)

(** Line 200 up to its [await]: [performActions] has been called and its
    promise is pending. *)
Definition executeActions_begin (actions : list ActionGroup)
    (updates : FileUpdates) (lp : Livepush) (serviceName : string)
  : M Execution :=
  _ ← emit (PerformActions lp updates actions);
  mret {| ex_actions := actions; ex_updates := updates;
          ex_livepush := lp; ex_serviceName := serviceName |}.

(** From the [await] of line 200 onwards, once the promise has settled
    with [r]. *)
Definition executeActions_resume (x : Execution) (r : Completion unit)
  : M unit :=
  _ ← emit (PerformActionsSettled (ex_livepush x) (ex_updates x)
              (ex_actions x) r);
  _ ← lift r;
  logLivepush (restarting_line (ex_serviceName x)).

(** [executeActions] run on its own, nothing else happening between the
    call of [performActions] and its outcome. *)
Definition executeActions (actions : list ActionGroup)
    (updates : FileUpdates) (lp : Livepush) (serviceName : string)
  : M unit :=
  x ← executeActions_begin actions updates lp serviceName;
  t ← get_trace;
  executeActions_resume x (performActions t lp updates actions).

(** *** handleFSEvent *)

(** The line of lines 146-150. *)
Definition event_line (fsEvent : ContextEvent) : string :=
  "Got an filesystem event for service: " +:+ serviceName fsEvent
  +:+ ". Event: " +:+ JSON_stringify fsEvent.

(** Lines 144-185: what [handleFSEvent] does before it either returns or
    reaches line 187 with a non-empty list of actions. *)
Definition diff_event (fsEvent : ContextEvent)
  : M (option (list ActionGroup * FileUpdates * Livepush)) :=
  (* TODO: If there's a dockerfile event, we must perform a rebuild *)
  _ ← logDebug (event_line fsEvent);
  updates ← lift (classify fsEvent);
  (* Work out if we need to perform any changes on this container *)
  me ← get_this;
  match containers me !! serviceName fsEvent with
  | None => throw (TypeError "Cannot read property 'livepush' of undefined")
  | Some c =>
    let lp := livepush c in
    t ← get_trace;
    let actions := actionsNeeded t lp updates in
    _ ← emit (ActionsNeeded lp updates actions);
    if length actions =? 0 then mret None
    else mret (Some (actions, updates, lp))
  end.

(** [handleFSEvent] run on its own. *)
Definition handleFSEvent (fsEvent : ContextEvent) : M unit :=
  d ← diff_event fsEvent;
  match d with
  | None => mret ()
  | Some (actions, updates, lp) =>
    _ ← logLivepush (detected_line (serviceName fsEvent));
    executeActions actions updates lp (serviceName fsEvent)
  end.

(** [handleFSEvent] as a listener runs it: synchronously up to the first
    pending promise.  [None] when the handler has returned, [Some x] when
    it is suspended in [executeActions]. *)
Definition handleFSEvent_begin (fsEvent : ContextEvent)
  : M (option Execution) :=
  d ← diff_event fsEvent;
  match d with
  | None => mret None
  | Some (actions, updates, lp) =>
    _ ← logLivepush (detected_line (serviceName fsEvent));
    x ← executeActions_begin actions updates lp (serviceName fsEvent);
    mret (Some x)
  end.

(** *** The event loop

    One thread runs the listeners.  A listener runs until its handler
    returns, throws or suspends at an [await]; a suspended handler goes on
    when its promise settles.  Nobody awaits the promise a listener
    returns, so what a handler throws ends up as an unhandled rejection.

    A watcher is an [EventEmitter]: an event of a kind that has no
    listener is dropped, except an [error] event, which the emitter
    throws; this module registers no listener for it and catches nothing,
    so the error is nobody's to handle either.  [unhandled] keeps both
    sorts of error; what the process does about them is not this module's
    doing. *)

Record Loop := {
  world : World;
  inflight : list Execution;
  unhandled : list Exn;
}.

(** [Notify service kind arg]: the watcher of the session of [service]
    emits [kind] with the argument [arg], a path, or for an [error] event
    the error.  [Settle i r]: the promise of the execution in flight at
    [i] settles with [r]. *)
Inductive Tick :=
| Notify (service kind path : string)
| Settle (i : nat) (r : Completion unit).

(** The events the listeners of a watcher build when it emits
    [kind] for [path]. *)
Definition emitted (m : FSWatcher) (kind path : string) : list ContextEvent :=
  map (λ l, snd l path)
      (List.filter (λ l, String.eqb (fst l) kind) (listeners m)).

Definition fire (fsEvent : ContextEvent) (l : Loop) : Loop :=
  match handleFSEvent_begin fsEvent (world l) with
  | (Return None, w) =>
    {| world := w; inflight := inflight l; unhandled := unhandled l |}
  | (Return (Some x), w) =>
    {| world := w; inflight := inflight l ++ [x]; unhandled := unhandled l |}
  | (Throw e, w) =>
    {| world := w; inflight := inflight l; unhandled := unhandled l ++ [e] |}
  end.

Definition settle (i : nat) (r : Completion unit) (l : Loop) : Loop :=
  match inflight l !! i with
  | None => l
  | Some x =>
    match executeActions_resume x r (world l) with
    | (Return _, w) =>
      {| world := w; inflight := delete i (inflight l);
         unhandled := unhandled l |}
    | (Throw e, w) =>
      {| world := w; inflight := delete i (inflight l);
         unhandled := unhandled l ++ [e] |}
    end
  end.

(** Whether a watcher has a listener for a kind of event. *)
Definition listens (m : FSWatcher) (kind : string) : bool :=
  existsb (λ l, String.eqb (fst l) kind) (listeners m).

(** An [error] event without a listener: the emitter throws the error. *)
Definition throws_error (m : FSWatcher) (kind : string) : bool :=
  String.eqb kind "error" && negb (listens m kind).

Definition tick (l : Loop) (t : Tick) : Loop :=
  match t with
  | Notify service kind path =>
    match containers (this (world l)) !! service with
    | None => l
    | Some c =>
      if throws_error (monitor c) kind then
        {| world := world l; inflight := inflight l;
           unhandled := unhandled l ++ [Rejection path] |}
      else foldl (λ l' ev, fire ev l') l (emitted (monitor c) kind path)
    end
  | Settle i r => settle i r l
  end.

Definition run (ts : list Tick) (l : Loop) : Loop := foldl tick l ts.

(** The executions of a service that are in flight. *)
Definition inflight_of (service : string) (l : Loop) : list Execution :=
  List.filter (λ x, String.eqb (ex_serviceName x) service) (inflight l).

(** Per-service mutual exclusion of executions. *)
Definition serialized (l : Loop) : Prop :=
  ∀ service, length (inflight_of service l) ≤ 1.

(** *** What the statements below talk about *)

Definition three_kinds : list string := ["add"; "change"; "unlink"].

Definition is_PerformActions (e : Effect) : bool :=
  match e with PerformActions _ _ _ => true | _ => false end.

(** The world with more effects recorded. *)
Definition after (w : World) (t : list Effect) : World :=
  {| this := this w; trace := trace w ++ t |}.

Definition is_session_effect (e : Effect) : bool :=
  match e with
  | NewLivepush _ | LivepushOn _ _ _ | ChokidarWatch _ _ _ => true
  | _ => false
  end.

(** The manager with a fetched status cached, if any was fetched. *)
Definition cache (o : option Status) (me : LivepushManager)
  : LivepushManager :=
  match o with
  | None => me
  | Some s =>
    {| buildContext := buildContext me;
       composition := composition me;
       buildTasks := buildTasks me;
       docker := docker me;
       lastDeviceStatus := Some s;
       containers := containers me |}
  end.

(** The build task and the container [init] finds for a service name. *)
Definition task_of (tasks : list BuildTask) (name : string)
  : option BuildTask :=
  List.find (λ task, String.eqb (bt_serviceName task) name) tasks.
Definition container_of (status : Status) (name : string)
  : option ContainerStatus :=
  List.find (λ container, String.eqb (cs_serviceName container) name)
    (st_containers status).

(** The session lines 66-124 make for a service. *)
Definition session_for (me : LivepushManager) (name : string)
    (service_build : BuildConfig) (dockerfile : string)
    (container : ContainerStatus) : MonitoredContainer :=
  let ctx := path_join (buildContext me) (context service_build) in
  {| mc_context := ctx;
     livepush := {| lp_dockerfile := dockerfile; lp_context := ctx;
                    lp_containerId := containerId container;
                    lp_docker := docker me |};
     monitor := {| cwd := ctx; ignoreInitial := true;
                   listeners := fs_listeners name |} |}.

(** What lines 89-118 record while they set a session up. *)
Definition setup_of (name : string) (c : MonitoredContainer) : list Effect :=
  [ NewLivepush (livepush c);
    LivepushOn (livepush c) "commandExecute" (λ command,
      service_log name ("Executing command: `" +:+ command +:+ "`"));
    LivepushOn (livepush c) "commandOutput" (λ output,
      service_log name ("    " +:+ output));
    ChokidarWatch "." (mc_context c) true ].

(** The world once the session [c] is set up and stored under [name]. *)
Definition with_session (name : string) (c : MonitoredContainer) (w : World)
  : World :=
  snd (set_container name c (after w (setup_of name c))).

(** What [init] throws for a service, if anything: there is no build task
    of its name, or it is built and its task has no dockerfile or the
    device reports no container for it. *)
Definition refusal (tasks : list BuildTask) (status : Status)
    (name : string) (service : Service) : option Exn :=
  match task_of tasks name with
  | None => Some (no_build_task name)
  | Some task =>
    match build service with
    | None => None
    | Some _ =>
      match dockerfile task with
      | None => Some (no_dockerfile name)
      | Some _ =>
        match container_of status name with
        | None => Some (no_container name)
        | Some _ => None
        end
      end
    end
  end.

(** The execution the handler of [fsEvent] starts in world [w], given the
    batch of the event and its session. *)
Definition execution_of (fsEvent : ContextEvent) (w : World)
    (updates : FileUpdates) (c : MonitoredContainer) : Execution :=
  {| ex_actions :=
       actionsNeeded (trace w ++ [LogDebug (event_line fsEvent)])
         (livepush c) updates;
     ex_updates := updates;
     ex_livepush := livepush c;
     ex_serviceName := serviceName fsEvent |}.

(** What the handler of [fsEvent] records up to and including its call of
    [performActions]. *)
Definition start_of (fsEvent : ContextEvent) (x : Execution) : list Effect :=
  [ LogDebug (event_line fsEvent);
    ActionsNeeded (ex_livepush x) (ex_updates x) (ex_actions x);
    LogLivepush (detected_line (serviceName fsEvent));
    PerformActions (ex_livepush x) (ex_updates x) (ex_actions x) ].

(** What [executeActions] records once [performActions] has settled. *)
Definition end_of (x : Execution) (r : Completion unit) : list Effect :=
  PerformActionsSettled (ex_livepush x) (ex_updates x) (ex_actions x) r
  :: match r with
     | Return _ => [LogLivepush (restarting_line (ex_serviceName x))]
     | Throw _ => []
     end.

(** The names of the services that are built. *)
Definition built (svcs : list (string * Service)) : list string :=
  map fst (List.filter
             (λ p, match build (snd p) with Some _ => true | None => false end)
             svcs).

(** *** More of what the statements below talk about *)

Definition is_ChokidarWatch (e : Effect) : bool :=
  match e with ChokidarWatch _ _ _ => true | _ => false end.

(** What the settle-wait records for answers that are not applied. *)
Definition polls (sts : list Status) : list Effect :=
  List.flat_map
    (λ st, [ GetStatus (Return st); LogDebug retrying_line;
             Delay DEVICE_STATUS_SETTLE_CHECK_INTERVAL ])
    sts.

(** The milliseconds slept in a trace. *)
Definition waited (t : list Effect) : nat :=
  foldr (λ e n, match e with Delay ms => ms + n | _ => n end) 0 t.

(** The watchers lines 104-109 start for the built services of a list. *)
Definition watched (me : LivepushManager) (svcs : list (string * Service))
  : list Effect :=
  List.flat_map
    (λ p, match build (snd p) with
          | Some b =>
            [ChokidarWatch "." (path_join (buildContext me) (context b)) true]
          | None => []
          end)
    svcs.

(** A session as [init] makes them: the diff engine and the watcher are on
    the context of the session, the watcher skips the initial scan and its
    listeners are the three that name the session's service. *)
Definition session_ok (name : string) (c : MonitoredContainer) : Prop :=
  lp_context (livepush c) = mc_context c
  ∧ cwd (monitor c) = mc_context c
  ∧ ignoreInitial (monitor c) = true
  ∧ listeners (monitor c) = fs_listeners name.

Definition sessions_ok (me : LivepushManager) : Prop :=
  ∀ name c, containers me !! name = Some c → session_ok name c.

(** An execution as the handler starts them: with actions to run, on the
    diff engine of the session of its service. *)
Definition execution_ok (me : LivepushManager) (x : Execution) : Prop :=
  ex_actions x ≠ []
  ∧ ∃ c, containers me !! ex_serviceName x = Some c
         ∧ ex_livepush x = livepush c.

End Manager.

(** ** Concrete collaborators and inputs *)

Module Demo.

Definition applying : Status := {| appState := "applying"; st_containers := [] |}.

Definition applied : Status :=
  {| appState := "applied";
     st_containers := [ {| cs_serviceName := "web"; containerId := "c0ffee" |} ] |}.

(** A device that answers [applying] to the first [n] calls and [last]
    from then on. *)
Definition device (n : nat) (last : Completion Status) (k : nat)
  : Completion Status :=
  if k <? n then Return applying else last.

(** Action groups are labels, the docker client a unit; the diff engine
    answers [groups] to every batch and [performActions] settles with
    [outcome]. *)
Definition collaborators (api : nat → Completion Status)
    (groups : list string) (outcome : Completion unit)
  : Collaborators string unit :=
  {| path_join := λ a b, a +:+ "/" +:+ b;
     JSON_stringify := λ ev, type ev +:+ " " +:+ filename ev;
     getStatus := api;
     newLivepush := λ _ _, None;
     actionsNeeded := λ _ _ _, groups;
     performActions := λ _ _ _ _, outcome |}.

Definition web : Service := {| build := Some {| context := "web" |} |}.
Definition db : Service := {| build := None |}.

Definition manager (svcs : list (string * Service)) (tasks : list BuildTask)
  : LivepushManager unit :=
  {| buildContext := "/src";
     composition := {| services := svcs |};
     buildTasks := tasks;
     docker := ();
     lastDeviceStatus := None;
     containers := ∅ |}.

Definition fresh (svcs : list (string * Service)) (tasks : list BuildTask)
  : World string unit :=
  {| this := manager svcs tasks; trace := [] |}.

Definition web_task : BuildTask :=
  {| bt_serviceName := "web"; dockerfile := Some "FROM node" |}.
Definition db_task : BuildTask :=
  {| bt_serviceName := "db"; dockerfile := None |}.

(** The world after a successful [init] on the one service [web]. *)
Definition web_lp : Livepush unit :=
  {| lp_dockerfile := "FROM node";
     lp_context := "/src/web";
     lp_containerId := "c0ffee";
     lp_docker := () |}.

Definition web_session : MonitoredContainer unit :=
  {| mc_context := "/src/web";
     livepush := web_lp;
     monitor := {| cwd := "/src/web"; ignoreInitial := true;
                   listeners := fs_listeners "web" |} |}.

Definition watching : World string unit :=
  {| this := {| buildContext := "/src";
                composition := {| services := [("web", web)] |};
                buildTasks := [web_task];
                docker := ();
                lastDeviceStatus := Some applied;
                containers := {[ "web" := web_session ]} |};
     trace := [] |}.

Definition idle : Loop (ActionGroup := string) (Dockerode := unit) :=
  {| world := watching; inflight := []; unhandled := [] |}.

(** A device that is settled at once, with a diff engine that finds
    nothing to do ([quiet]) or one layer to redo ([busy]); a device that
    settles at the third call ([slow]); one whose third call fails
    ([offline]). *)
Definition quiet : Collaborators string unit :=
  collaborators (device 0 (Return applied)) [] (Return ()).
Definition busy : Collaborators string unit :=
  collaborators (device 0 (Return applied)) ["layer"] (Return ()).
Definition slow : Collaborators string unit :=
  collaborators (device 2 (Return applied)) ["layer"] (Return ()).
Definition offline : Collaborators string unit :=
  collaborators (device 2 (Throw (Rejection "ECONNREFUSED"))) ["layer"]
    (Return ()).

(** The world [init] constructs the sessions in, with [busy]. *)
Definition settled (svcs : list (string * Service)) (tasks : list BuildTask)
  : World string unit :=
  {| this := cache (Some applied) (manager svcs tasks);
     trace := [LogLivepush waiting_line; GetStatus (Return applied)] |}.

(** As [busy], but with a diff engine whose constructor cannot parse the
    dockerfile. *)
Definition unparsed : Exn := Error "Could not parse the dockerfile".
Definition broken : Collaborators string unit :=
  {| path_join := λ a b, a +:+ "/" +:+ b;
     JSON_stringify := λ ev, type ev +:+ " " +:+ filename ev;
     getStatus := device 0 (Return applied);
     newLivepush := λ _ _, Some unparsed;
     actionsNeeded := λ _ _ _, ["layer"];
     performActions := λ _ _ _ _, Return () |}.

(** A device that never settles. *)
Definition stuck : Collaborators string unit :=
  collaborators (λ _, Return applying) ["layer"] (Return ()).

(** The services web, which is built, and db, which is not; the world once
    [init] has set the session of web up. *)
Definition both : list (string * Service) := [("web", web); ("db", db)].

Definition web_up (svcs : list (string * Service)) (tasks : list BuildTask)
  : World string unit :=
  with_session "web" web_session (settled svcs tasks).

Definition change_schema : ContextEvent :=
  {| type := "change"; filename := "schema.sql"; serviceName := "db" |}.

Definition change_app : ContextEvent :=
  {| type := "change"; filename := "app.js"; serviceName := "web" |}.
Definition add_readme : ContextEvent :=
  {| type := "add"; filename := "README.md"; serviceName := "web" |}.
Definition rename_app : ContextEvent :=
  {| type := "rename"; filename := "app.js"; serviceName := "web" |}.

End Demo.

(** ** Tactics *)

(** Runs the steps of a computation that are in sight. *)
Ltac step_m :=
  unfold logLivepush, logDebug;
  unfold mbind, M_bind, mret, M_ret, emit, lift, throw, get_this, get_trace,
    after;
  simpl.

(** Settles a decidable statement by evaluation. *)
Ltac by_evaluation :=
  match goal with
  | |- ?P => apply (bool_decide_unpack P); vm_compute; exact I
  end.

(** ** Properties *)

Section Properties.

Context {ActionGroup Dockerode : Type}.
Context {X : Collaborators ActionGroup Dockerode}.

#[local] Abbreviation World := (World ActionGroup Dockerode).
#[local] Abbreviation Effect := (Effect ActionGroup Dockerode).
#[local] Abbreviation Livepush := (Livepush Dockerode).
#[local] Abbreviation MonitoredContainer := (MonitoredContainer Dockerode).
#[local] Abbreviation Loop := (@Loop ActionGroup Dockerode).

Implicit Types (w : World) (l : Loop) (fsEvent : ContextEvent).

#[local] Arguments cache : simpl never.


(** *** The event classifier *)

Lemma eqb_false_of_ne (a b : string) : a ≠ b → String.eqb a b = false.
Proof. intros H. by apply String.eqb_neq. Qed.

Lemma not_three_kinds (kind : string) :
  kind ∉ three_kinds → kind ≠ "add" ∧ kind ≠ "change" ∧ kind ≠ "unlink".
Proof.
  unfold three_kinds. intros H.
  repeat split; intros ->; apply H; set_solver.
Qed.

Lemma classify_unknown fsEvent :
  type fsEvent ∉ three_kinds →
  classify fsEvent = Throw (unknown_event (type fsEvent)).
Proof.
  intros (Ha & Hc & Hu)%not_three_kinds. unfold classify.
  by rewrite !eqb_false_of_ne.
Qed.

(** C3.  An event of kind add, change or unlink on path [p] is classified
    as the batch with [p] alone in [added], [updated] or [deleted]
    respectively and the two other lists empty; every other kind fails with
    the unknown-event error. *)
Theorem classify_by_kind (kind p service : string) :
  let fsEvent := {| type := kind; filename := p; serviceName := service |} in
  (kind = "add" →
   classify fsEvent = Return {| updated := []; added := [p]; deleted := [] |})
  ∧ (kind = "change" →
     classify fsEvent = Return {| updated := [p]; added := []; deleted := [] |})
  ∧ (kind = "unlink" →
     classify fsEvent = Return {| updated := []; added := []; deleted := [p] |})
  ∧ (kind ∉ three_kinds →
     classify fsEvent = Throw (unknown_event kind)).
Proof.
  intros fsEvent. repeat split.
  - by intros ->.
  - by intros ->.
  - by intros ->.
  - intros H. by apply (classify_unknown fsEvent).
Qed.

(** *** The handler *)

Lemma diff_event_unknown fsEvent w :
  type fsEvent ∉ three_kinds →
  diff_event fsEvent w
  = (Throw (unknown_event (type fsEvent)),
     after w [LogDebug (event_line fsEvent)]).
Proof.
  intros H. unfold diff_event, mbind, M_bind, logDebug, emit, lift, after.
  simpl. by rewrite (classify_unknown _ H).
Qed.

Lemma diff_event_known fsEvent w updates c :
  classify fsEvent = Return updates →
  containers (this w) !! serviceName fsEvent = Some c →
  let t := trace w ++ [LogDebug (event_line fsEvent)] in
  let actions := actionsNeeded t (livepush c) updates in
  diff_event fsEvent w
  = (Return (if length actions =? 0 then None
             else Some (actions, updates, livepush c)),
     after w [LogDebug (event_line fsEvent);
              ActionsNeeded (livepush c) updates actions]).
Proof.
  intros Hc Hs t actions.
  unfold diff_event, mbind, M_bind, logDebug, emit, lift, get_this, get_trace,
    after.
  simpl. rewrite Hc. simpl. rewrite Hs. simpl.
  fold t. fold actions. subst t. rewrite <- app_assoc. simpl.
  by destruct (length actions =? 0).
Qed.

Lemma handleFSEvent_begin_unknown fsEvent w :
  type fsEvent ∉ three_kinds →
  handleFSEvent_begin fsEvent w
  = (Throw (unknown_event (type fsEvent)),
     after w [LogDebug (event_line fsEvent)]).
Proof.
  intros H. unfold handleFSEvent_begin, mbind, M_bind at 1.
  by rewrite diff_event_unknown.
Qed.

Lemma handleFSEvent_begin_no_actions fsEvent w updates c :
  classify fsEvent = Return updates →
  containers (this w) !! serviceName fsEvent = Some c →
  actionsNeeded (trace w ++ [LogDebug (event_line fsEvent)])
    (livepush c) updates = [] →
  handleFSEvent_begin fsEvent w
  = (Return None,
     after w [LogDebug (event_line fsEvent);
              ActionsNeeded (livepush c) updates []]).
Proof.
  intros Hc Hs Ha. unfold handleFSEvent_begin, mbind, M_bind at 1.
  by rewrite (diff_event_known _ _ _ _ Hc Hs), Ha.
Qed.

(** C10.  An event whose kind is none of add, change and unlink makes the
    handler throw right after its debug line: the diff engine is not
    asked, no execution starts, and the manager's fields, the sessions
    among them, are as before. *)
Theorem handleFSEvent_unknown_kind fsEvent w l :
  type fsEvent ∉ three_kinds →
  handleFSEvent fsEvent w
  = (Throw (unknown_event (type fsEvent)),
     after w [LogDebug (event_line fsEvent)])
  ∧ fire fsEvent l
    = {| world := after (world l) [LogDebug (event_line fsEvent)];
         inflight := inflight l;
         unhandled := unhandled l ++ [unknown_event (type fsEvent)] |}.
Proof.
  intros H. split.
  - unfold handleFSEvent, mbind, M_bind at 1.
    by rewrite diff_event_unknown.
  - unfold fire. by rewrite handleFSEvent_begin_unknown.
Qed.

(** C5.  When the diff engine answers a classified batch with no actions,
    the handler returns after that answer: [performActions] is not called,
    nothing is logged beyond the debug line, no execution starts and the
    manager's fields are as before. *)
Theorem handleFSEvent_no_actions fsEvent l updates c :
  let w := world l in
  let w' := after w [LogDebug (event_line fsEvent);
                     ActionsNeeded (livepush c) updates []] in
  classify fsEvent = Return updates →
  containers (this w) !! serviceName fsEvent = Some c →
  actionsNeeded (trace w ++ [LogDebug (event_line fsEvent)])
    (livepush c) updates = [] →
  handleFSEvent fsEvent w = (Return (), w')
  ∧ fire fsEvent l
    = {| world := w'; inflight := inflight l; unhandled := unhandled l |}.
Proof.
  intros w w' Hc Hs Ha. split.
  - unfold handleFSEvent, mbind, M_bind at 1.
    by rewrite (diff_event_known _ _ _ _ Hc Hs), Ha.
  - unfold fire. change (world l) with w.
    by rewrite (handleFSEvent_begin_no_actions _ _ _ _ Hc Hs Ha).
Qed.

(** *** The executor *)

Lemma length_eqb_0 {A} (xs : list A) : xs ≠ [] → (length xs =? 0) = false.
Proof. by destruct xs. Qed.

Lemma executeActions_resume_eq (x : Execution ActionGroup Dockerode)
    (r : Completion unit) w :
  executeActions_resume x r w = (r, after w (end_of x r)).
Proof.
  unfold executeActions_resume, end_of. step_m.
  destruct r as [[]|e]; simpl; by rewrite <- ?app_assoc.
Qed.

Lemma executeActions_eq actions updates (lp : Livepush) service w :
  let x := {| ex_actions := actions; ex_updates := updates;
              ex_livepush := lp; ex_serviceName := service |} in
  let call := PerformActions lp updates actions in
  let r := performActions (trace w ++ [call]) lp updates actions in
  executeActions actions updates lp service w
  = (r, after w (call :: end_of x r)).
Proof.
  intros x call r.
  unfold executeActions, executeActions_begin, mbind, M_bind, emit,
    get_trace, mret, M_ret. simpl.
  fold call. fold r. fold x. rewrite executeActions_resume_eq.
  unfold after. simpl. by rewrite <- app_assoc.
Qed.

(** C8.  The executor calls [performActions] once, with the batch and the
    action list it was given, and logs the restart notice if and only if
    that call succeeds; when the call fails the notice is not logged and
    the executor fails with the same error. *)
Theorem executeActions_notice actions updates (lp : Livepush) service w :
  let call := PerformActions lp updates actions in
  let r := performActions (trace w ++ [call]) lp updates actions in
  let notice := LogLivepush (restarting_line service) in
  ∃ t, executeActions actions updates lp service w = (r, after w (call :: t))
       ∧ List.filter is_PerformActions t = []
       ∧ (notice ∈ t ↔ r = Return ())
       ∧ (∀ e, r = Throw e → t = [PerformActionsSettled lp updates actions r]).
Proof.
  intros call r notice. eexists. split; [apply executeActions_eq|].
  fold call. fold r. unfold end_of. simpl.
  destruct r as [[]|e]; simpl; repeat split; try done.
  - intros _. subst notice. set_solver.
  - intros H. exfalso. apply list_elem_of_singleton in H. discriminate.
Qed.

Lemma handleFSEvent_begin_actions fsEvent w updates c :
  let x := execution_of fsEvent w updates c in
  classify fsEvent = Return updates →
  containers (this w) !! serviceName fsEvent = Some c →
  ex_actions x ≠ [] →
  handleFSEvent_begin fsEvent w = (Return (Some x), after w (start_of fsEvent x)).
Proof.
  intros x Hc Hs Ha. unfold handleFSEvent_begin, mbind, M_bind at 1.
  rewrite (diff_event_known _ _ _ _ Hc Hs).
  change (actionsNeeded _ _ _) with (ex_actions x).
  rewrite (length_eqb_0 _ Ha).
  unfold executeActions_begin, mbind, M_bind, logLivepush, emit, mret, M_ret,
    after, start_of. simpl. by rewrite <- !app_assoc.
Qed.

(** A batch that needs actions, handled with nothing else going on: the
    start of the execution, then its end. *)
Lemma handleFSEvent_actions fsEvent w updates c :
  let x := execution_of fsEvent w updates c in
  let r := performActions (trace w ++ start_of fsEvent x)
             (livepush c) updates (ex_actions x) in
  classify fsEvent = Return updates →
  containers (this w) !! serviceName fsEvent = Some c →
  ex_actions x ≠ [] →
  handleFSEvent fsEvent w = (r, after w (start_of fsEvent x ++ end_of x r)).
Proof.
  intros x r Hc Hs Ha. unfold handleFSEvent, mbind, M_bind at 1.
  rewrite (diff_event_known _ _ _ _ Hc Hs).
  change (actionsNeeded _ _ _) with (ex_actions x).
  rewrite (length_eqb_0 _ Ha).
  unfold mbind, M_bind, logLivepush, emit. rewrite executeActions_eq.
  unfold after, start_of. simpl. rewrite <- !app_assoc. simpl. done.
Qed.

(** *** The event loop *)

Lemma fire_actions fsEvent l updates c :
  let x := execution_of fsEvent (world l) updates c in
  classify fsEvent = Return updates →
  containers (this (world l)) !! serviceName fsEvent = Some c →
  ex_actions x ≠ [] →
  fire fsEvent l
  = {| world := after (world l) (start_of fsEvent x);
       inflight := inflight l ++ [x];
       unhandled := unhandled l |}.
Proof.
  intros x Hc Hs Ha. unfold fire.
  by rewrite (handleFSEvent_begin_actions _ _ _ _ Hc Hs Ha).
Qed.

Lemma inflight_of_app service (xs ys : list (Execution ActionGroup Dockerode))
    w u w' u' :
  inflight_of service {| world := w; inflight := xs ++ ys; unhandled := u |}
  = inflight_of service {| world := w'; inflight := xs; unhandled := u' |}
    ++ inflight_of service {| world := w'; inflight := ys; unhandled := u' |}.
Proof. unfold inflight_of. simpl. apply List.filter_app. Qed.

(** X15.  The event loop and the handler run on its own agree: an event
    fired into a loop with nothing in flight, its execution then settling
    with what [performActions] answers, leaves the world [handleFSEvent]
    leaves, and leaves unhandled what [handleFSEvent] throws. *)
Lemma fire_then_settle fsEvent l updates c :
  let x := execution_of fsEvent (world l) updates c in
  let r := performActions (trace (world l) ++ start_of fsEvent x)
             (livepush c) updates (ex_actions x) in
  classify fsEvent = Return updates →
  containers (this (world l)) !! serviceName fsEvent = Some c →
  ex_actions x ≠ [] →
  inflight l = [] →
  world (settle 0 r (fire fsEvent l)) = snd (handleFSEvent fsEvent (world l))
  ∧ inflight (settle 0 r (fire fsEvent l)) = []
  ∧ unhandled (settle 0 r (fire fsEvent l))
    = unhandled l ++ match fst (handleFSEvent fsEvent (world l)) with
                     | Return _ => []
                     | Throw e => [e]
                     end.
Proof.
  intros x r Hc Hs Ha Hi.
  rewrite (fire_actions _ _ _ _ Hc Hs Ha).
  rewrite (handleFSEvent_actions _ _ _ _ Hc Hs Ha).
  fold x. fold r. unfold settle. simpl. rewrite Hi. simpl.
  rewrite executeActions_resume_eq. unfold after. simpl.
  destruct r as [[]|e]; simpl; rewrite <- ?app_assoc, ?app_nil_r; done.
Qed.

(** C1, as the code has it.  The handler of an event whose batch needs
    actions calls [performActions] before it returns to the event loop,
    whatever is in flight.  So of two such events handled one after the
    other, for the same service or for two services, both executions are
    in flight afterwards, the second one started while the first one had
    not settled; when the two events are for the same service, executions
    of that service are not serialized. *)
Theorem second_execution_does_not_wait fsEvent1 fsEvent2 l u1 u2 c1 c2 :
  let l1 := fire fsEvent1 l in
  let l2 := fire fsEvent2 l1 in
  let x1 := execution_of fsEvent1 (world l) u1 c1 in
  let x2 := execution_of fsEvent2 (world l1) u2 c2 in
  classify fsEvent1 = Return u1 →
  containers (this (world l)) !! serviceName fsEvent1 = Some c1 →
  ex_actions x1 ≠ [] →
  classify fsEvent2 = Return u2 →
  containers (this (world l)) !! serviceName fsEvent2 = Some c2 →
  ex_actions x2 ≠ [] →
  inflight l2 = inflight l ++ [x1; x2]
  ∧ trace (world l2)
    = trace (world l) ++ start_of fsEvent1 x1 ++ start_of fsEvent2 x2
  ∧ (serviceName fsEvent1 = serviceName fsEvent2 → ¬ serialized l2).
Proof.
  intros l1 l2 x1 x2 Hc1 Hs1 Ha1 Hc2 Hs2 Ha2.
  assert (E1 : l1 = {| world := after (world l) (start_of fsEvent1 x1);
                       inflight := inflight l ++ [x1];
                       unhandled := unhandled l |})
    by exact (fire_actions _ _ _ _ Hc1 Hs1 Ha1).
  assert (Hs2' : containers (this (world l1)) !! serviceName fsEvent2 = Some c2)
    by (by rewrite E1).
  assert (E2 : l2 = {| world := after (world l1) (start_of fsEvent2 x2);
                       inflight := inflight l1 ++ [x2];
                       unhandled := unhandled l1 |})
    by exact (fire_actions _ _ _ _ Hc2 Hs2' Ha2).
  assert (Hin : inflight l2 = inflight l ++ [x1; x2]).
  { rewrite E2. simpl. rewrite E1. simpl. by rewrite <- app_assoc. }
  split; [exact Hin|]. split.
  - rewrite E2. simpl. rewrite E1. simpl. by rewrite <- app_assoc.
  - intros Heq Hser. specialize (Hser (serviceName fsEvent1)).
    unfold inflight_of in Hser. rewrite Hin, List.filter_app in Hser.
    rewrite length_app in Hser. simpl in Hser.
    rewrite <- Heq, String.eqb_refl in Hser. simpl in Hser. lia.
Qed.

(** *** The settle-wait *)

Lemma calls_made_app (t1 t2 : list Effect) :
  calls_made (t1 ++ t2) = calls_made t1 + calls_made t2.
Proof. unfold calls_made. by rewrite List.filter_app, length_app. Qed.

Lemma settle_attempt_unsettled w st :
  getStatus (calls_made (trace w)) = Return st →
  appState st ≠ "applied" →
  settle_attempt w
  = (Return false,
     {| this := cache (Some st) (this w);
        trace := trace w ++ [GetStatus (Return st); LogDebug retrying_line;
                              Delay DEVICE_STATUS_SETTLE_CHECK_INTERVAL] |}).
Proof.
  intros Hg Hne. unfold settle_attempt, api_getStatus, set_lastDeviceStatus.
  step_m. rewrite Hg. simpl. rewrite (eqb_false_of_ne _ _ Hne). simpl.
  by rewrite <- !app_assoc.
Qed.

Lemma settle_attempt_applied w st :
  getStatus (calls_made (trace w)) = Return st →
  appState st = "applied" →
  settle_attempt w
  = (Return true,
     {| this := cache (Some st) (this w);
        trace := trace w ++ [GetStatus (Return st)] |}).
Proof.
  intros Hg He. unfold settle_attempt, api_getStatus, set_lastDeviceStatus.
  step_m. rewrite Hg. simpl. by rewrite He.
Qed.

Lemma settle_attempt_failed w e :
  getStatus (calls_made (trace w)) = Throw e →
  settle_attempt w = (Throw e, after w [GetStatus (Throw e)]).
Proof.
  intros Hg. unfold settle_attempt, api_getStatus. step_m. by rewrite Hg.
Qed.

Lemma cache_cache (o : option Status) (s : Status)
    (me : LivepushManager Dockerode) :
  cache o (cache (Some s) me)
  = cache (Some (default s o)) me.
Proof. by destruct o. Qed.

(** [N] answers that are not yet applied cost [N] passes and leave the
    manager as it was, but for the cached status. *)
Lemma await_unsettled (N : nat) : ∀ fuel w,
  (∀ k, k < N → ∃ st, getStatus (calls_made (trace w) + k) = Return st
                      ∧ appState st ≠ "applied") →
  ∃ o t,
    awaitDeviceStateSettle (N + fuel) w
    = awaitDeviceStateSettle fuel
        {| this := cache o (this w); trace := trace w ++ t |}
    ∧ calls_made t = N
    ∧ Forall (λ e, is_session_effect e = false) t.
Proof.
  induction N as [|N IH]; intros fuel w Hun.
  - exists None, []. simpl. rewrite app_nil_r. by destruct w.
  - destruct (Hun 0) as (st & Hg & Hne); [lia|].
    rewrite Nat.add_0_r in Hg.
    change (S N + fuel) with (S (N + fuel)). simpl.
    rewrite (settle_attempt_unsettled _ _ Hg Hne).
    edestruct (IH fuel) as (o & t & E & Hc & Hf); last first.
    + rewrite E. simpl. rewrite cache_cache, <- app_assoc.
      eexists (Some _), _. split; [reflexivity|]. split.
      * rewrite calls_made_app, Hc. done.
      * repeat constructor. exact Hf.
    + simpl. intros k Hk. rewrite calls_made_app. simpl.
      destruct (Hun (S k)) as (st' & Hg' & Hne'); [lia|].
      exists st'. split; [|done]. rewrite <- Hg'. f_equal.
      unfold calls_made at 2. simpl. lia.
Qed.

Lemma await_settles N fuel w (last : Status) :
  (∀ k, k < N → ∃ st, getStatus (calls_made (trace w) + k) = Return st
                      ∧ appState st ≠ "applied") →
  getStatus (calls_made (trace w) + N) = Return last →
  appState last = "applied" →
  N < fuel →
  ∃ t, awaitDeviceStateSettle fuel w
       = Some (Return (),
               {| this := cache (Some last) (this w); trace := trace w ++ t |})
       ∧ calls_made t = N + 1
       ∧ Forall (λ e, is_session_effect e = false) t.
Proof.
  intros Hun Hg Ha Hf.
  destruct (await_unsettled N (fuel - N) w Hun) as (o & t & E & Hc & Hs).
  replace (N + (fuel - N)) with fuel in E by lia. rewrite E.
  destruct (fuel - N) as [|f] eqn:Ef; [lia|]. simpl.
  rewrite (settle_attempt_applied _ last).
  - simpl. rewrite <- app_assoc.
    replace (cache (Some last) (cache o (this w)))
      with (cache (Some last) (this w)) by (by destruct o).
    eexists. split; [reflexivity|]. split.
    + rewrite calls_made_app, Hc. done.
    + apply Forall_app. split; [done|]. by repeat constructor.
  - simpl. by rewrite calls_made_app, Hc.
  - done.
Qed.

Lemma await_fails N fuel w (e : Exn) :
  (∀ k, k < N → ∃ st, getStatus (calls_made (trace w) + k) = Return st
                      ∧ appState st ≠ "applied") →
  getStatus (calls_made (trace w) + N) = Throw e →
  N < fuel →
  ∃ o t, awaitDeviceStateSettle fuel w
         = Some (Throw e,
                 {| this := cache o (this w);
                    trace := trace w ++ t ++ [GetStatus (Throw e)] |})
         ∧ calls_made t = N
         ∧ Forall (λ e, is_session_effect e = false) t.
Proof.
  intros Hun Hg Hf.
  destruct (await_unsettled N (fuel - N) w Hun) as (o & t & E & Hc & Hs).
  replace (N + (fuel - N)) with fuel in E by lia. rewrite E.
  destruct (fuel - N) as [|f] eqn:Ef; [lia|]. simpl.
  rewrite (settle_attempt_failed _ e).
  - unfold after. simpl. rewrite <- app_assoc. by exists o, t.
  - simpl. by rewrite calls_made_app, Hc.
Qed.

Lemma init_eq fuel w :
  init fuel w
  = match awaitDeviceStateSettle fuel (after w [LogLivepush waiting_line]) with
    | None => None
    | Some (Throw e, w1) => Some (Throw e, w1)
    | Some (Return _, w1) =>
      Some (init_loop (services (composition (this w1))) w1)
    end.
Proof. reflexivity. Qed.

Lemma composition_cache (o : option Status) (me : LivepushManager Dockerode) :
  composition (cache o me) = composition me.
Proof. by destruct o. Qed.

Lemma containers_cache (o : option Status) (me : LivepushManager Dockerode) :
  containers (cache o me) = containers me.
Proof. by destruct o. Qed.

(** C4.  When the device answers the first [N] calls with a state that is
    not applied and call [N + 1] with an applied one, the settle-wait
    returns (given fuel for [N + 1] passes) after exactly [N + 1] calls of
    [getStatus], and the status it has cached, from which [init] goes on to
    construct the sessions, is the answer to call [N + 1]. *)
Theorem awaitDeviceStateSettle_settles N fuel w (last : Status) :
  let c := calls_made (trace w) in
  (∀ k, k < N → ∃ st, getStatus (c + k) = Return st
                      ∧ appState st ≠ "applied") →
  getStatus (c + N) = Return last →
  appState last = "applied" →
  N < fuel →
  (∃ w', awaitDeviceStateSettle fuel w = Some (Return (), w')
         ∧ calls_made (trace w') = c + (N + 1)
         ∧ lastDeviceStatus (this w') = Some last)
  ∧ (∃ w', init fuel w
           = Some (init_loop (services (composition (this w))) w')
           ∧ calls_made (trace w') = c + (N + 1)
           ∧ lastDeviceStatus (this w') = Some last).
Proof.
  intros c Hun Hg Ha Hf. split.
  - destruct (await_settles N fuel w last Hun Hg Ha Hf) as (t & E & Hc & _).
    eexists. split; [exact E|]. simpl. by rewrite calls_made_app, Hc.
  - rewrite init_eq.
    edestruct (await_settles N fuel (after w [LogLivepush waiting_line]) last)
      as (t & E & Hc & _); try done.
    + intros k Hk. simpl. rewrite calls_made_app. simpl.
      rewrite Nat.add_0_r. by apply Hun.
    + simpl. rewrite calls_made_app. simpl. by rewrite Nat.add_0_r.
    + rewrite E. eexists. split; [reflexivity|]. simpl.
      rewrite !calls_made_app, Hc. split; [|done]. fold c.
      change (calls_made [LogLivepush waiting_line]) with 0. lia.
Qed.

(** C9.  When a call of [getStatus] fails, after any number of answers
    that were not applied, the settle-wait fails with that error and the
    failed call is the last thing it did; [init] fails with the same error,
    its sessions are those it had before, and it has set no session up. *)
Theorem getStatus_failure_aborts N fuel w (e : Exn) :
  let c := calls_made (trace w) in
  (∀ k, k < N → ∃ st, getStatus (c + k) = Return st
                      ∧ appState st ≠ "applied") →
  getStatus (c + N) = Throw e →
  N < fuel →
  (∃ w' t, awaitDeviceStateSettle fuel w = Some (Throw e, w')
           ∧ trace w' = trace w ++ t ++ [GetStatus (Throw e)]
           ∧ calls_made t = N)
  ∧ (∃ w' t, init fuel w = Some (Throw e, w')
             ∧ containers (this w') = containers (this w)
             ∧ trace w' = trace w ++ t ++ [GetStatus (Throw e)]
             ∧ calls_made t = N
             ∧ Forall (λ e, is_session_effect e = false) t).
Proof.
  intros c Hun Hg Hf. split.
  - destruct (await_fails N fuel w e Hun Hg Hf) as (o & t & E & Hc & _).
    by eexists _, t.
  - rewrite init_eq.
    edestruct (await_fails N fuel (after w [LogLivepush waiting_line]) e)
      as (o & t & E & Hc & Hs); try done.
    + intros k Hk. simpl. rewrite calls_made_app. simpl.
      rewrite Nat.add_0_r. by apply Hun.
    + simpl. rewrite calls_made_app. simpl. by rewrite Nat.add_0_r.
    + rewrite E. eexists _, (LogLivepush waiting_line :: t).
      split; [reflexivity|]. simpl. rewrite containers_cache.
      split; [done|]. rewrite <- app_assoc. split; [done|].
      split; [done|]. by constructor.
Qed.

(** *** Session construction *)

Lemma init_service_refused name (service : Service) w status e :
  lastDeviceStatus (this w) = Some status →
  refusal (buildTasks (this w)) status name service = Some e →
  init_service name service w = (Throw e, w).
Proof.
  intros Hst. unfold refusal, init_service, task_of, container_of. step_m.
  destruct (List.find _ (buildTasks (this w))) as [task|]; [|by intros [= <-]].
  destruct (build service) as [b|]; [|done].
  destruct (dockerfile task) as [df|]; [|by intros [= <-]].
  rewrite Hst.
  destruct (List.find _ (st_containers status)); [done|by intros [= <-]].
Qed.

(** The loop body on a service that has all it needs: it comes down to
    the constructor. *)
Lemma init_service_built name (service : Service) b task df status
    container w :
  build service = Some b →
  task_of (buildTasks (this w)) name = Some task →
  dockerfile task = Some df →
  lastDeviceStatus (this w) = Some status →
  container_of status name = Some container →
  let c := session_for (this w) name b df container in
  init_service name service w
  = match newLivepush (trace w) (livepush c) with
    | Some e => (Throw e, w)
    | None => (Return (), with_session name c w)
    end.
Proof.
  intros Hb Ht Hd Hst Hc c. unfold task_of in Ht. unfold container_of in Hc.
  unfold init_service. step_m. rewrite Ht, Hb, Hd, Hst, Hc.
  change (newLivepush _ _) with (newLivepush (trace w) (livepush c)).
  destruct (newLivepush (trace w) (livepush c)) as [e|]; [done|].
  unfold with_session, set_container, after, setup_of. subst c.
  unfold session_for. simpl. by rewrite <- !app_assoc.
Qed.

Lemma init_service_accepted name (service : Service) w status :
  lastDeviceStatus (this w) = Some status →
  refusal (buildTasks (this w)) status name service = None →
  match build service with
  | None => init_service name service w = (Return (), w)
  | Some b =>
    ∃ task df container,
      task_of (buildTasks (this w)) name = Some task
      ∧ dockerfile task = Some df
      ∧ container_of status name = Some container
      ∧ let c := session_for (this w) name b df container in
        init_service name service w
        = match newLivepush (trace w) (livepush c) with
          | Some e => (Throw e, w)
          | None => (Return (), with_session name c w)
          end
  end.
Proof.
  intros Hst Hr. unfold refusal in Hr.
  destruct (task_of (buildTasks (this w)) name) as [task|] eqn:Ht; [|done].
  destruct (build service) as [b|] eqn:Hb.
  - destruct (dockerfile task) as [df|] eqn:Hd; [|done].
    destruct (container_of status name) as [container|] eqn:Hc; [|done].
    exists task, df, container. do 3 (split; [done|]).
    by apply (init_service_built _ _ _ task _ status).
  - unfold init_service, task_of in *. step_m. by rewrite Ht, Hb.
Qed.

(** C6, as the code has it.  A service that declares no build is passed
    over, the world unchanged, when a build task of its name exists,
    whatever that task's dockerfile and whatever the device reports; when
    no build task has its name, [init] throws for it as for any other
    service. *)
Theorem init_service_image name (service : Service) w :
  build service = None →
  (is_Some (task_of (buildTasks (this w)) name) →
   init_service name service w = (Return (), w))
  ∧ (task_of (buildTasks (this w)) name = None →
     init_service name service w = (Throw (no_build_task name), w)).
Proof.
  intros Hb. unfold init_service, task_of. step_m. split.
  - intros [task ->]. by rewrite Hb.
  - by intros ->.
Qed.

Lemma emitted_fs_listeners (m : FSWatcher) name (kind path : string) :
  listeners m = fs_listeners name →
  emitted m kind path
  = if bool_decide (kind ∈ three_kinds)
    then [{| type := kind; filename := path; serviceName := name |}]
    else [].
Proof.
  intros Hl. unfold emitted. rewrite Hl. unfold fs_listeners, three_kinds.
  cbn [List.filter fst].
  destruct (String.eqb_spec "add" kind) as [<-|Ha].
  { rewrite bool_decide_eq_true_2 by set_solver. done. }
  destruct (String.eqb_spec "change" kind) as [<-|Hc].
  { rewrite bool_decide_eq_true_2 by set_solver. done. }
  destruct (String.eqb_spec "unlink" kind) as [<-|Hu].
  { rewrite bool_decide_eq_true_2 by set_solver. done. }
  rewrite bool_decide_eq_false_2; [done|]. intros H.
  repeat (apply elem_of_cons in H as [->|H]; [done|]).
  by apply elem_of_nil in H.
Qed.



(** One pass of the loop body on a service that has all it needs and
    whose diff engine the constructor makes. *)
Lemma init_service_session name (service : Service) b task df status
    container w :
  let ctx := path_join (buildContext (this w)) (context b) in
  let lp := {| lp_dockerfile := df; lp_context := ctx;
               lp_containerId := containerId container;
               lp_docker := docker (this w) |} in
  let c := {| mc_context := ctx; livepush := lp;
              monitor := {| cwd := ctx; ignoreInitial := true;
                            listeners := fs_listeners name |} |} in
  build service = Some b →
  task_of (buildTasks (this w)) name = Some task →
  dockerfile task = Some df →
  lastDeviceStatus (this w) = Some status →
  container_of status name = Some container →
  newLivepush (trace w) lp = None →
  ∃ w', init_service name service w = (Return (), w')
    ∧ trace w' = trace w ++ setup_of name c
    ∧ containers (this w') = <[name := c]> (containers (this w)).
Proof.
  intros ctx lp c Hb Ht Hd Hst Hc Hn.
  pose proof (init_service_built _ _ _ _ _ _ _ _ Hb Ht Hd Hst Hc) as E.
  cbv zeta in E. unfold session_for in E. simpl in E.
  subst c lp ctx. rewrite Hn in E.
  eexists. split; [exact E|]. by unfold with_session.
Qed.

Lemma init_loop_app (pre rest : list (string * Service)) w :
  init_loop (pre ++ rest) w
  = match init_loop pre w with
    | (Return _, w') => init_loop rest w'
    | (Throw e, w') => (Throw e, w')
    end.
Proof.
  revert w. induction pre as [|[name service] pre IH]; intros w; [done|].
  simpl. unfold mbind, M_bind.
  destruct (init_service name service w) as [[[]|e] w']; [apply IH|done].
Qed.

Lemma built_cons name (service : Service) svcs :
  built ((name, service) :: svcs)
  = match build service with
    | Some _ => name :: built svcs
    | None => built svcs
    end.
Proof. unfold built. simpl. by destruct (build service). Qed.

Lemma init_service_throws name (service : Service) w e w' :
  init_service name service w = (Throw e, w') →
  w' = w
  ∧ (e = no_build_task name
     ∨ (is_Some (build service)
        ∧ (e = no_dockerfile name
           ∨ e = no_container name
           ∨ lastDeviceStatus (this w) = None
           ∨ ∃ b task df status container,
               build service = Some b
               ∧ task_of (buildTasks (this w)) name = Some task
               ∧ dockerfile task = Some df
               ∧ lastDeviceStatus (this w) = Some status
               ∧ container_of status name = Some container
               ∧ newLivepush (trace w)
                   (livepush (session_for (this w) name b df container))
                 = Some e))).
Proof.
  destruct (task_of (buildTasks (this w)) name) as [task|] eqn:Ht; last first.
  { unfold init_service, task_of in *. step_m. rewrite Ht.
    intros [= <- <-]. by auto. }
  destruct (build service) as [b|] eqn:Hb; last first.
  { unfold init_service, task_of in *. step_m. by rewrite Ht, Hb. }
  destruct (dockerfile task) as [df|] eqn:Hd; last first.
  { unfold init_service, task_of in *. step_m. rewrite Ht, Hb, Hd.
    intros [= <- <-]. by eauto 6. }
  destruct (lastDeviceStatus (this w)) as [status|] eqn:Hst; last first.
  { unfold init_service, task_of in *. step_m. rewrite Ht, Hb, Hd, Hst.
    intros [= <- <-]. by eauto 7. }
  destruct (container_of status name) as [container|] eqn:Hc; last first.
  { unfold init_service, task_of, container_of in *. step_m.
    rewrite Ht, Hb, Hd, Hst, Hc. intros [= <- <-]. by eauto 7. }
  rewrite (init_service_built _ _ _ _ _ _ _ _ Hb Ht Hd Hst Hc). simpl.
  destruct (newLivepush _ _) as [e'|] eqn:Hn; [|done].
  intros [= <- <-]. split; [done|]. right. split; [done|].
  do 3 right. by exists b, task, df, status, container.
Qed.

Lemma init_service_returns name (service : Service) w w' :
  init_service name service w = (Return (), w') →
  match build service with
  | None => w' = w
  | Some b =>
    ∃ task df status container,
      task_of (buildTasks (this w)) name = Some task
      ∧ dockerfile task = Some df
      ∧ lastDeviceStatus (this w) = Some status
      ∧ container_of status name = Some container
      ∧ w' = with_session name (session_for (this w) name b df container) w
  end.
Proof.
  destruct (task_of (buildTasks (this w)) name) as [task|] eqn:Ht; last first.
  { unfold init_service, task_of in *. step_m. by rewrite Ht. }
  destruct (build service) as [b|] eqn:Hb; last first.
  { unfold init_service, task_of in *. step_m. rewrite Ht, Hb.
    by intros [= <-]. }
  destruct (dockerfile task) as [df|] eqn:Hd; last first.
  { unfold init_service, task_of in *. step_m. by rewrite Ht, Hb, Hd. }
  destruct (lastDeviceStatus (this w)) as [status|] eqn:Hst; last first.
  { unfold init_service, task_of in *. step_m. by rewrite Ht, Hb, Hd, Hst. }
  destruct (container_of status name) as [container|] eqn:Hc; last first.
  { unfold init_service, task_of, container_of in *. step_m.
    by rewrite Ht, Hb, Hd, Hst, Hc. }
  rewrite (init_service_built _ _ _ _ _ _ _ _ Hb Ht Hd Hst Hc). simpl.
  destruct (newLivepush _ _) as [e'|]; [done|].
  intros [= <-]. by exists task, df, status, container.
Qed.

Lemma init_service_frame name (service : Service) w r w' :
  init_service name service w = (r, w') →
  buildContext (this w') = buildContext (this w)
  ∧ docker (this w') = docker (this w)
  ∧ buildTasks (this w') = buildTasks (this w)
  ∧ lastDeviceStatus (this w') = lastDeviceStatus (this w)
  ∧ (∀ other, other ≠ name →
       containers (this w') !! other = containers (this w) !! other).
Proof.
  intros E. destruct r as [[]|e].
  - pose proof (init_service_returns _ _ _ _ E) as Hr.
    destruct (build service) as [b|]; [|by rewrite Hr].
    destruct Hr as (task & df & status & container & _ & _ & _ & _ & ->).
    unfold with_session. simpl. repeat split; try done.
    intros other Hne. by apply lookup_insert_ne.
  - by destruct (init_service_throws _ _ _ _ _ E) as [-> _].
Qed.

Lemma init_loop_frame (svcs : list (string * Service)) : ∀ w r w',
  init_loop svcs w = (r, w') →
  buildContext (this w') = buildContext (this w)
  ∧ docker (this w') = docker (this w)
  ∧ buildTasks (this w') = buildTasks (this w)
  ∧ lastDeviceStatus (this w') = lastDeviceStatus (this w)
  ∧ (∀ other, other ∉ svcs.*1 →
       containers (this w') !! other = containers (this w) !! other).
Proof.
  induction svcs as [|[name service] svcs IH]; intros w r w'.
  - by intros [= <- <-].
  - simpl. unfold mbind, M_bind.
    destruct (init_service name service w) as [[[]|e] w1] eqn:E1;
      pose proof (init_service_frame _ _ _ _ _ E1) as (Hc & Hd & Hb & Hs & Ho).
    + intros E. destruct (IH _ _ _ E) as (Hc' & Hd' & Hb' & Hs' & Ho').
      rewrite Hc', Hd', Hb', Hs'. repeat split; try done.
      intros other Hn. apply not_elem_of_cons in Hn as [Hne Hn].
      by rewrite Ho', Ho.
    + intros [= <- <-]. repeat split; try done.
      intros other Hn. apply not_elem_of_cons in Hn as [Hne Hn]. by apply Ho.
Qed.

Lemma init_loop_throws (svcs : list (string * Service)) : ∀ w e w',
  init_loop svcs w = (Throw e, w') →
  ∃ pre name service post,
    svcs = pre ++ (name, service) :: post
    ∧ init_loop pre w = (Return (), w')
    ∧ init_service name service w' = (Throw e, w').
Proof.
  induction svcs as [|[n s] svcs IH]; intros w e w'; [done|].
  simpl. unfold mbind, M_bind.
  destruct (init_service n s w) as [[[]|e1] w1] eqn:E1.
  - intros E. destruct (IH _ _ _ E) as (pre & name & service & post & -> & Hp & Hs).
    exists ((n, s) :: pre), name, service, post. split; [done|].
    split; [|done]. simpl. unfold mbind, M_bind. by rewrite E1.
  - intros [= <- <-]. destruct (init_service_throws _ _ _ _ _ E1) as [-> _].
    by exists [], n, s, svcs.
Qed.

(** A loop that returns has met no refusal, and has added a session for
    each built service. *)
Lemma init_loop_returns (svcs : list (string * Service)) : ∀ w w' status,
  lastDeviceStatus (this w) = Some status →
  init_loop svcs w = (Return (), w') →
  Forall (λ p, refusal (buildTasks (this w)) status p.1 p.2 = None) svcs
  ∧ dom (containers (this w'))
    = dom (containers (this w)) ∪ list_to_set (built svcs).
Proof.
  induction svcs as [|[n s] svcs IH]; intros w w' status Hst.
  - intros [= <-]. split; [by constructor|]. set_solver.
  - simpl. unfold mbind, M_bind.
    destruct (refusal (buildTasks (this w)) status n s) as [e|] eqn:Hr.
    { by rewrite (init_service_refused _ _ _ _ _ Hst Hr). }
    destruct (init_service n s w) as [[[]|e] w1] eqn:E1; [|done].
    destruct (init_service_frame _ _ _ _ _ E1) as (_ & _ & Hbt & Hl & _).
    pose proof (init_service_returns _ _ _ _ E1) as Hret.
    intros E. rewrite Hst in Hl.
    destruct (IH w1 w' status Hl E) as (Hall & Hdom).
    rewrite Hbt in Hall. split; [by constructor|].
    rewrite Hdom, built_cons. destruct (build s) as [b|].
    + destruct Hret as (task & df & st & container & _ & _ & _ & _ & ->).
      unfold with_session. simpl. rewrite dom_insert_L. set_solver.
    + by rewrite Hret.
Qed.

Lemma init_loop_extends (svcs : list (string * Service)) : ∀ w r w',
  init_loop svcs w = (r, w') → ∃ t, trace w' = trace w ++ t.
Proof.
  induction svcs as [|[n s] svcs IH]; intros w r w'.
  - intros [= <- <-]. exists []. by rewrite app_nil_r.
  - simpl. unfold mbind, M_bind.
    destruct (init_service n s w) as [[[]|e] w1] eqn:E1.
    + intros E. destruct (IH _ _ _ E) as (t & ->).
      pose proof (init_service_returns _ _ _ _ E1) as Hret.
      destruct (build s) as [b|].
      * destruct Hret as (task & df & st & container & _ & _ & _ & _ & ->).
        exists (setup_of n (session_for (this w) n b df container) ++ t).
        unfold with_session. simpl. by rewrite <- app_assoc.
      * rewrite Hret. by exists t.
    + intros [= <- <-]. destruct (init_service_throws _ _ _ _ _ E1) as [-> _].
      exists []. by rewrite app_nil_r.
Qed.

(** When the loop returns, every built service of the composition has its
    session stored under its name, and the loop has set it up. *)
Lemma init_loop_sessions (svcs : list (string * Service)) : ∀ w w' status,
  NoDup svcs.*1 →
  lastDeviceStatus (this w) = Some status →
  init_loop svcs w = (Return (), w') →
  ∀ name service b,
    (name, service) ∈ svcs → build service = Some b →
    ∃ task df container,
      task_of (buildTasks (this w)) name = Some task
      ∧ dockerfile task = Some df
      ∧ container_of status name = Some container
      ∧ containers (this w') !! name
        = Some (session_for (this w) name b df container)
      ∧ ∃ t1 t2,
          trace w'
          = trace w ++ t1
            ++ setup_of name (session_for (this w) name b df container)
            ++ t2.
Proof.
  induction svcs as [|[n s] svcs IH]; intros w w' status Hnd Hst Hloop
    name service b Hin Hb.
  - by apply elem_of_nil in Hin.
  - apply NoDup_cons in Hnd as [Hn Hnd]. simpl in Hloop.
    unfold mbind, M_bind in Hloop.
    destruct (init_service n s w) as [[[]|e] w1] eqn:E1; [|done].
    pose proof (init_service_frame _ _ _ _ _ E1) as (Hc & Hd & Hbt & Hs1 & _).
    pose proof (init_service_returns _ _ _ _ E1) as Hret.
    destruct (init_loop_frame _ _ _ _ Hloop) as (_ & _ & _ & _ & Ho).
    apply elem_of_cons in Hin as [[= -> ->]|Hin].
    + rewrite Hb in Hret.
      destruct Hret as (task & df & st & container & Ht & Hdf & Hst' & Hco & ->).
      rewrite Hst in Hst'. injection Hst' as <-.
      exists task, df, container. do 3 (split; [done|]). split.
      * rewrite (Ho n Hn). unfold with_session. simpl. apply lookup_insert_eq.
      * destruct (init_loop_extends _ _ _ _ Hloop) as (t & Hext).
        exists [], t. rewrite Hext.
        unfold with_session. simpl. by rewrite <- app_assoc.
    + rewrite Hst in Hs1.
      destruct (IH w1 w' status Hnd Hs1 Hloop name service b Hin Hb)
        as (task & df & container & Ht & Hdf & Hco & Hl & t1 & t2 & Htr).
      exists task, df, container. rewrite <- Hbt. do 3 (split; [done|]).
      assert (Hsf : session_for (this w1) name b df container
                    = session_for (this w) name b df container)
        by (unfold session_for; by rewrite Hc, Hd).
      rewrite Hsf in Hl, Htr. split; [done|].
      destruct (build s) as [b'|].
      * destruct Hret as (task' & df' & st' & container' & _ & _ & _ & _ & ->).
        unfold with_session in Htr. simpl in Htr.
        exists (setup_of n (session_for (this w) n b' df' container') ++ t1), t2.
        rewrite Htr. by rewrite <- !app_assoc.
      * rewrite Hret in Htr. by exists t1, t2.
Qed.

Lemma first_refusal (tasks : list BuildTask) (status : Status)
    (svcs : list (string * Service)) :
  Exists (λ p, refusal tasks status p.1 p.2 ≠ None) svcs →
  ∃ pre name service post e,
    svcs = pre ++ (name, service) :: post
    ∧ Forall (λ p, refusal tasks status p.1 p.2 = None) pre
    ∧ refusal tasks status name service = Some e.
Proof.
  induction svcs as [|[name service] svcs IH]; intros Hex.
  - by apply Exists_nil in Hex.
  - destruct (refusal tasks status name service) as [e|] eqn:Hr.
    + by exists [], name, service, svcs, e.
    + apply Exists_cons in Hex as [Hex|Hex]; [simpl in Hex; congruence|].
      destruct (IH Hex) as (pre & n & s & post & e & -> & Hall & He).
      exists ((name, service) :: pre), n, s, post, e.
      split; [done|]. split; [|done]. by constructor.
Qed.

Lemma refused_not_accepted (tasks : list BuildTask) (status : Status)
    (svcs : list (string * Service)) :
  Exists (λ p, refusal tasks status p.1 p.2 ≠ None) svcs →
  ¬ Forall (λ p, refusal tasks status p.1 p.2 = None) svcs.
Proof.
  intros Hex Hall. apply Exists_exists in Hex as (p & Hin & Hne).
  apply Hne. by apply (proj1 (Forall_forall _ _) Hall p Hin).
Qed.

(** C2, as the code has it.  When [init] has waited for the device and
    some service of the composition is refused (it has no build task, or
    it is built and its task has no dockerfile or the device reports no
    container for it), [init] throws: at the first service in enumeration
    order that is refused or whose diff engine the constructor fails to
    make, and with the error of that refusal or of the constructor.
    Nothing is undone: the sessions are then those there were before
    together with one for each built service enumerated before that
    service, and none was made for that service or the services after
    it. *)
Theorem init_stops_at_first_refusal fuel w w1 status :
  awaitDeviceStateSettle fuel (after w [LogLivepush waiting_line])
  = Some (Return (), w1) →
  lastDeviceStatus (this w1) = Some status →
  Exists (λ p, refusal (buildTasks (this w1)) status p.1 p.2 ≠ None)
    (services (composition (this w1))) →
  ∃ pre name service post e w',
    services (composition (this w1)) = pre ++ (name, service) :: post
    ∧ Forall (λ p, refusal (buildTasks (this w1)) status p.1 p.2 = None) pre
    ∧ (refusal (buildTasks (this w1)) status name service = Some e
       ∨ ∃ b task df container,
           build service = Some b
           ∧ task_of (buildTasks (this w1)) name = Some task
           ∧ dockerfile task = Some df
           ∧ container_of status name = Some container
           ∧ newLivepush (trace w')
               (livepush (session_for (this w1) name b df container))
             = Some e)
    ∧ init fuel w = Some (Throw e, w')
    ∧ init_loop pre w1 = (Return (), w')
    ∧ init_service name service w' = (Throw e, w')
    ∧ dom (containers (this w'))
      = dom (containers (this w1)) ∪ list_to_set (built pre).
Proof.
  intros Hsettle Hst Hex.
  destruct (init_loop (services (composition (this w1))) w1)
    as [[[]|e] w'] eqn:E.
  { destruct (init_loop_returns _ _ _ _ Hst E) as [Hall _].
    by destruct (refused_not_accepted _ _ _ Hex). }
  destruct (init_loop_throws _ _ _ _ E)
    as (pre & name & service & post & Hsplit & Hp & Hs).
  destruct (init_loop_returns _ _ _ _ Hst Hp) as [Hall Hdom].
  destruct (init_loop_frame _ _ _ _ Hp) as (Hc & Hd & Hbt & Hl & _).
  exists pre, name, service, post, e, w'.
  do 2 (split; [done|]). split; [|split; [|done]].
  - destruct (refusal (buildTasks (this w1)) status name service)
      as [e'|] eqn:Hr.
    + left. rewrite <- Hbt in Hr. rewrite Hst in Hl.
      rewrite (init_service_refused _ _ _ _ _ Hl Hr) in Hs. by injection Hs as <-.
    + right. rewrite <- Hbt in Hr. rewrite Hst in Hl.
      pose proof (init_service_accepted _ _ _ _ Hl Hr) as Ha.
      destruct (build service) as [b|]; [|by rewrite Ha in Hs].
      destruct Ha as (task & df & container & Ht & Hdf & Hco & Ha).
      simpl in Ha. rewrite Ha in Hs.
      destruct (newLivepush _ _) as [e'|] eqn:Hn; [|done].
      injection Hs as <-. exists b, task, df, container.
      rewrite <- Hbt. do 4 (split; [done|]).
      rewrite <- Hn. f_equal. unfold session_for. by rewrite Hc, Hd.
  - by rewrite init_eq, Hsettle, E.
Qed.

(** A loop over services none of which is refused returns when the
    constructor of the diff engine never throws. *)
Lemma init_loop_accepts (svcs : list (string * Service)) : ∀ w status,
  (∀ t lp, newLivepush t lp = None) →
  lastDeviceStatus (this w) = Some status →
  Forall (λ p, refusal (buildTasks (this w)) status p.1 p.2 = None) svcs →
  ∃ w', init_loop svcs w = (Return (), w').
Proof.
  induction svcs as [|[name service] svcs IH]; intros w status Hno Hst Hall.
  - by exists w.
  - apply Forall_cons in Hall as [Hr Hall]. simpl in Hr.
    pose proof (init_service_accepted _ _ _ _ Hst Hr) as Ha.
    simpl. unfold mbind, M_bind.
    destruct (build service) as [b|].
    + destruct Ha as (task & df & container & _ & _ & _ & Ha).
      simpl in Ha. rewrite Hno in Ha. rewrite Ha.
      apply (IH _ status); [done|done|done].
    + rewrite Ha. by apply (IH _ status).
Qed.

(** *** More on the event classifier *)

Lemma classify_Return fsEvent updates :
  classify fsEvent = Return updates →
  (type fsEvent = "add"
   ∧ updates = {| updated := []; added := [filename fsEvent]; deleted := [] |})
  ∨ (type fsEvent = "change"
     ∧ updates = {| updated := [filename fsEvent]; added := [];
                    deleted := [] |})
  ∨ (type fsEvent = "unlink"
     ∧ updates = {| updated := []; added := [];
                    deleted := [filename fsEvent] |}).
Proof.
  unfold classify.
  destruct (String.eqb_spec (type fsEvent) "add") as [Ha|_].
  { intros [= <-]. by left. }
  destruct (String.eqb_spec (type fsEvent) "change") as [Hc|_].
  { intros [= <-]. right. by left. }
  destruct (String.eqb_spec (type fsEvent) "unlink") as [Hu|_]; [|done].
  intros [= <-]. right. by right.
Qed.

(** X1.  Two events that are classified as the same batch have the same
    kind and the same path: a batch holds one path, in the list of its
    kind, and so tells which event it comes from, up to the service. *)
Theorem classify_injective fsEvent1 fsEvent2 updates :
  classify fsEvent1 = Return updates →
  classify fsEvent2 = Return updates →
  type fsEvent1 = type fsEvent2
  ∧ filename fsEvent1 = filename fsEvent2
  ∧ length (updated updates) + length (added updates)
    + length (deleted updates) = 1.
Proof.
  intros H1 H2.
  destruct (classify_Return _ _ H1) as [[K1 E1]|[[K1 E1]|[K1 E1]]];
    destruct (classify_Return _ _ H2) as [[K2 E2]|[[K2 E2]|[K2 E2]]];
    rewrite E1 in E2; try discriminate E2;
    injection E2 as E2; rewrite K1, K2, E1; done.
Qed.

(** *** More on the settle-wait *)

Lemma settle_attempt_cases w :
  settle_attempt w
  = match getStatus (calls_made (trace w)) with
    | Throw e => (Throw e, after w [GetStatus (Throw e)])
    | Return st =>
      if String.eqb (appState st) "applied"
      then (Return true,
            {| this := cache (Some st) (this w);
               trace := trace w ++ [GetStatus (Return st)] |})
      else (Return false,
            {| this := cache (Some st) (this w);
               trace := trace w ++ polls [st] |})
    end.
Proof.
  destruct (getStatus (calls_made (trace w))) as [st|e] eqn:Hg.
  - destruct (String.eqb_spec (appState st) "applied") as [Ha|Hn].
    + by apply settle_attempt_applied.
    + by apply settle_attempt_unsettled.
  - by apply settle_attempt_failed.
Qed.

Lemma cache_twice (o : option Status) (s : Status)
    (me : LivepushManager Dockerode) :
  cache (Some s) (cache o me) = cache (Some s) me.
Proof. by destruct o. Qed.

(** Every run of the settle-wait that ends: what it leaves. *)
Lemma await_cases fuel : ∀ w r w',
  awaitDeviceStateSettle fuel w = Some (r, w') →
  ∃ o t,
    w' = {| this := cache o (this w); trace := trace w ++ t |}
    ∧ Forall (λ e, is_session_effect e = false) t
    ∧ match r with
      | Return _ =>
        ∃ st, lastDeviceStatus (this w') = Some st ∧ appState st = "applied"
      | Throw e => ∃ k, getStatus k = Throw e
      end.
Proof.
  induction fuel as [|fuel IH]; intros w r w'; [done|].
  simpl. rewrite settle_attempt_cases.
  destruct (getStatus (calls_made (trace w))) as [st|e] eqn:Hg.
  - destruct (String.eqb_spec (appState st) "applied") as [Ha|Hn].
    + intros [= <- <-]. exists (Some st), [GetStatus (Return st)].
      split; [done|]. split; [by repeat constructor|]. by exists st.
    + intros E. destruct (IH _ _ _ E) as (o & t & -> & Hf & Hr).
      simpl in Hr |- *. rewrite cache_cache in Hr |- *.
      rewrite <- app_assoc.
      eexists (Some _), _. split; [reflexivity|].
      split; [|exact Hr]. apply Forall_app. split; [|done].
      by repeat constructor.
  - intros [= <- <-]. exists None, [GetStatus (Throw e)].
    split; [done|]. split; [by repeat constructor|]. by eexists.
Qed.

(** X2.  While the device answers with states that are not applied the
    settle-wait goes on: no number of passes is enough for it, or for
    [init], to come back. *)
Theorem awaitDeviceStateSettle_never_gives_up fuel w :
  (∀ k, ∃ st, getStatus (calls_made (trace w) + k) = Return st
              ∧ appState st ≠ "applied") →
  awaitDeviceStateSettle fuel w = None ∧ init fuel w = None.
Proof.
  intros Hun. split.
  - destruct (await_unsettled fuel 0 w) as (o & t & E & _); [by intros k _|].
    rewrite Nat.add_0_r in E. by rewrite E.
  - rewrite init_eq.
    destruct (await_unsettled fuel 0 (after w [LogLivepush waiting_line]))
      as (o & t & E & _).
    + intros k _. simpl. rewrite calls_made_app.
      change (calls_made [LogLivepush waiting_line]) with 0.
      rewrite Nat.add_0_r. apply Hun.
    + rewrite Nat.add_0_r in E. by rewrite E.
Qed.

Lemma polls_cons (st : Status) (sts : list Status) :
  (polls (st :: sts) : list Effect) = polls [st] ++ polls sts.
Proof. reflexivity. Qed.

Lemma calls_made_polls (sts : list Status) :
  calls_made (polls sts : list Effect) = length sts.
Proof.
  induction sts as [|st sts IH]; [done|].
  rewrite polls_cons, calls_made_app, IH. done.
Qed.

Lemma waited_app (t1 t2 : list Effect) : waited (t1 ++ t2) = waited t1 + waited t2.
Proof.
  induction t1 as [|e t1 IH]; [done|]. simpl. rewrite IH.
  destruct e; lia.
Qed.

Lemma waited_polls (sts : list Status) :
  waited (polls sts : list Effect)
  = length sts * DEVICE_STATUS_SETTLE_CHECK_INTERVAL.
Proof.
  induction sts as [|st sts IH]; [done|].
  rewrite polls_cons, waited_app, IH. simpl. lia.
Qed.

Lemma await_polls (sts : list Status) : ∀ fuel w,
  (∀ k st, sts !! k = Some st →
     getStatus (calls_made (trace w) + k) = Return st
     ∧ appState st ≠ "applied") →
  ∃ o,
    awaitDeviceStateSettle (length sts + fuel) w
    = awaitDeviceStateSettle fuel
        {| this := cache o (this w); trace := trace w ++ polls sts |}.
Proof.
  induction sts as [|st sts IH]; intros fuel w Hun.
  - exists None. simpl. rewrite app_nil_r. by destruct w.
  - destruct (Hun 0 st) as (Hg & Hne); [done|].
    rewrite Nat.add_0_r in Hg. simpl.
    rewrite (settle_attempt_unsettled _ _ Hg Hne).
    edestruct (IH fuel) as (o & E); last first.
    + rewrite E. simpl. rewrite cache_cache, <- app_assoc.
      by eexists (Some _).
    + simpl. intros k st' Hk. rewrite calls_made_app.
      destruct (Hun (S k) st' Hk) as (Hg' & Hne'). split; [|done].
      rewrite <- Hg'. f_equal. unfold calls_made at 2. simpl. lia.
Qed.

(** X3.  When the device answers with the states [sts], none of them
    applied, and then with an applied one, the settle-wait does this and
    nothing else: for each state of [sts] in turn the call, the debug line
    and a sleep of the check interval, then the last call, after which it
    returns without sleeping.  It has slept the interval once per state of
    [sts]. *)
Theorem awaitDeviceStateSettle_trace (sts : list Status) fuel w
    (last : Status) :
  (∀ k st, sts !! k = Some st →
     getStatus (calls_made (trace w) + k) = Return st
     ∧ appState st ≠ "applied") →
  getStatus (calls_made (trace w) + length sts) = Return last →
  appState last = "applied" →
  length sts < fuel →
  let t := polls sts ++ [GetStatus (Return last)] in
  awaitDeviceStateSettle fuel w
  = Some (Return (),
          {| this := cache (Some last) (this w); trace := trace w ++ t |})
  ∧ waited t = length sts * DEVICE_STATUS_SETTLE_CHECK_INTERVAL.
Proof.
  intros Hun Hg Ha Hf t. split.
  - destruct (await_polls sts (fuel - length sts) w Hun) as (o & E).
    replace (length sts + (fuel - length sts)) with fuel in E by lia.
    rewrite E. destruct (fuel - length sts) as [|f] eqn:Ef; [lia|]. simpl.
    rewrite (settle_attempt_applied _ last).
    + simpl. by rewrite cache_twice, <- app_assoc.
    + simpl. by rewrite calls_made_app, calls_made_polls.
    + done.
  - subst t. rewrite waited_app, waited_polls. simpl. lia.
Qed.

(** X4.  However the settle-wait ends, it has changed nothing of the
    manager but the cached status: the sessions, the composition, the
    build tasks, the build context and the docker client are as before,
    and it has made no diff engine and no watcher. *)
Theorem awaitDeviceStateSettle_frame fuel w r w' :
  awaitDeviceStateSettle fuel w = Some (r, w') →
  containers (this w') = containers (this w)
  ∧ composition (this w') = composition (this w)
  ∧ buildTasks (this w') = buildTasks (this w)
  ∧ buildContext (this w') = buildContext (this w)
  ∧ docker (this w') = docker (this w)
  ∧ ∃ t, trace w' = trace w ++ t
         ∧ Forall (λ e, is_session_effect e = false) t.
Proof.
  intros E. destruct (await_cases _ _ _ _ E) as (o & t & -> & Hf & _).
  simpl. do 5 (split; [by destruct o|]). by exists t.
Qed.

(** X5.  When the settle-wait returns, a status is cached and it is an
    applied one; so the read of [lastDeviceStatus!.containers] at line 76
    never meets [null]. *)
Theorem awaitDeviceStateSettle_returns_applied fuel w w' :
  awaitDeviceStateSettle fuel w = Some (Return (), w') →
  ∃ st, lastDeviceStatus (this w') = Some st ∧ appState st = "applied".
Proof.
  intros E. by destruct (await_cases _ _ _ _ E) as (o & t & _ & _ & Hr).
Qed.

(** *** More on session construction *)




(** X6.  When the loop over the services throws, the world is the one the
    loop over the services before the refused one had left: the refused
    service itself has added nothing, neither a diff engine nor a watcher
    nor a session, and the services after it were not looked at. *)
Theorem init_loop_throw_keeps_prefix (svcs : list (string * Service)) w e w' :
  init_loop svcs w = (Throw e, w') →
  ∃ pre name service post,
    svcs = pre ++ (name, service) :: post
    ∧ init_loop pre w = (Return (), w')
    ∧ init_loop (pre ++ [(name, service)]) w = (Throw e, w').
Proof.
  intros E.
  destruct (init_loop_throws _ _ _ _ E)
    as (pre & name & service & post & -> & Hp & Hs).
  exists pre, name, service, post. do 2 (split; [done|]).
  rewrite init_loop_app, Hp. simpl. unfold mbind, M_bind. by rewrite Hs.
Qed.


(** X7.  What [init] can throw: an error [getStatus] failed with, or, for
    a service of the composition, the missing-build-task error, or (the
    service being built) the missing-dockerfile error, the
    missing-container error, or the error the constructor of its diff
    engine threw.  The read of the cached status is not among them: the
    status is there when the loop reads it. *)
Theorem init_throws fuel w e w' :
  init fuel w = Some (Throw e, w') →
  (∃ k, getStatus k = Throw e)
  ∨ ∃ name service,
      (name, service) ∈ services (composition (this w))
      ∧ (e = no_build_task name
         ∨ (is_Some (build service)
            ∧ (e = no_dockerfile name
               ∨ e = no_container name
               ∨ ∃ b task df status container,
                   build service = Some b
                   ∧ task_of (buildTasks (this w)) name = Some task
                   ∧ dockerfile task = Some df
                   ∧ lastDeviceStatus (this w') = Some status
                   ∧ container_of status name = Some container
                   ∧ newLivepush (trace w')
                       (livepush (session_for (this w) name b df container))
                     = Some e))).
Proof.
  rewrite init_eq.
  destruct (awaitDeviceStateSettle fuel _) as [[[[]|e1] w1]|] eqn:Ea;
    [|intros [= <- <-]|done].
  - intros [= E]. right.
    destruct (await_cases _ _ _ _ Ea) as (o & t & Hw1 & _ & st & Hst & _).
    destruct (init_loop_throws _ _ _ _ E)
      as (pre & name & service & post & Hsplit & Hp & Hs).
    exists name, service. split.
    { rewrite Hw1 in Hsplit. simpl in Hsplit.
      rewrite composition_cache in Hsplit. rewrite Hsplit.
      apply elem_of_app. right. by left. }
    destruct (init_loop_frame _ _ _ _ Hp) as (Hc & Hd & Hbt & Hl & _).
    destruct (init_service_throws _ _ _ _ _ Hs)
      as [_ [?|[Hb [?|[?|[Hn|Hctor]]]]]]; auto.
    { rewrite Hl, Hst in Hn. discriminate. }
    destruct Hctor as (b & task & df & status & container
                       & Hb' & Ht & Hdf & Hst' & Hco & Hnew).
    right. split; [done|]. do 2 right.
    exists b, task, df, status, container. split; [done|].
    split. { rewrite Hbt, Hw1 in Ht. simpl in Ht. by destruct o. }
    do 3 (split; [done|]). rewrite <- Hnew. f_equal.
    unfold session_for. rewrite Hc, Hd, Hw1. simpl. by destruct o.
  - left. by destruct (await_cases _ _ _ _ Ea) as (_ & _ & _ & _ & Hk).
Qed.

Lemma session_for_cache (o : option Status) (me : LivepushManager Dockerode)
    name b df container :
  session_for (cache o me) name b df container
  = session_for me name b df container.
Proof. by destruct o. Qed.


(** X8.  When [init] returns, on a composition whose service names are
    distinct, an applied status is cached and every service that declares
    a build has its session stored under its name: made for the dockerfile
    of its build task, the build context joined with the context of its
    build, and the container this applied status reports for it. *)
Theorem init_sessions fuel w w' :
  NoDup (services (composition (this w))).*1 →
  init fuel w = Some (Return (), w') →
  ∃ status,
    lastDeviceStatus (this w') = Some status
    ∧ appState status = "applied"
    ∧ ∀ name service b,
        (name, service) ∈ services (composition (this w)) →
        build service = Some b →
        ∃ task df container,
          task_of (buildTasks (this w)) name = Some task
          ∧ dockerfile task = Some df
          ∧ container_of status name = Some container
          ∧ containers (this w') !! name
            = Some (session_for (this w) name b df container).
Proof.
  intros Hnd. rewrite init_eq.
  destruct (awaitDeviceStateSettle fuel _) as [[[[]|e1] w1]|] eqn:Ea;
    [|done|done].
  intros [= E].
  destruct (await_cases _ _ _ _ Ea) as (o & t & Hw1 & _ & st & Hst & Happ).
  destruct (init_loop_frame _ _ _ _ E) as (_ & _ & _ & Hl & _).
  exists st. split; [by rewrite Hl|]. split; [done|].
  intros name service b Hin Hb.
  assert (Hc : composition (this w1) = composition (this w))
    by (rewrite Hw1; simpl; apply composition_cache).
  rewrite Hc in E.
  destruct (init_loop_sessions _ _ _ st Hnd Hst E name service b Hin Hb)
    as (task & df & container & Ht & Hd & Hco & Hs & _).
  exists task, df, container.
  rewrite Hw1 in Ht, Hs. simpl in Ht, Hs.
  rewrite session_for_cache in Hs.
  split; [by destruct o|]. done.
Qed.


(** X9.  When [init] returns, the names under which sessions are stored
    are those there were before and those of the services that declare a
    build: a service without a build gets no session. *)
Theorem init_sessions_dom fuel w w' :
  init fuel w = Some (Return (), w') →
  dom (containers (this w'))
  = dom (containers (this w))
    ∪ list_to_set (built (services (composition (this w)))).
Proof.
  rewrite init_eq.
  destruct (awaitDeviceStateSettle fuel _) as [[[[]|e1] w1]|] eqn:Ea;
    [|done|done].
  intros [= E].
  destruct (await_cases _ _ _ _ Ea) as (o & t & Hw1 & _ & st & Hst & _).
  destruct (init_loop_returns _ _ _ _ Hst E) as [_ Hdom].
  rewrite Hdom, Hw1. simpl.
  by rewrite containers_cache, composition_cache.
Qed.


(** X10.  Once the settle-wait has returned: [init] returns only if no
    service of the composition is refused, that is, only if every service
    has a build task and every service that declares a build has a
    dockerfile in its task and a container in the cached status; and when
    none is refused and the constructor of the diff engine never throws,
    [init] does return. *)
Theorem init_returns_when_accepted fuel w w1 status :
  awaitDeviceStateSettle fuel (after w [LogLivepush waiting_line])
  = Some (Return (), w1) →
  lastDeviceStatus (this w1) = Some status →
  let accepted :=
    Forall (λ p, refusal (buildTasks (this w)) status p.1 p.2 = None)
      (services (composition (this w))) in
  ((∃ w', init fuel w = Some (Return (), w')) → accepted)
  ∧ ((∀ t lp, newLivepush t lp = None) → accepted →
     ∃ w', init fuel w = Some (Return (), w')).
Proof.
  intros Ea Hst accepted. subst accepted.
  destruct (await_cases _ _ _ _ Ea) as (o & t & Hw1 & _).
  assert (Hb : buildTasks (this w1) = buildTasks (this w))
    by (rewrite Hw1; by destruct o).
  assert (Hc : composition (this w1) = composition (this w))
    by (rewrite Hw1; simpl; apply composition_cache).
  rewrite <- Hb, <- Hc. split.
  - intros [w' E]. rewrite init_eq, Ea in E. injection E as E.
    by destruct (init_loop_returns _ _ _ _ Hst E) as [Hall _].
  - intros Hno Hall.
    destruct (init_loop_accepts _ _ _ Hno Hst Hall) as (w' & E).
    exists w'. by rewrite init_eq, Ea, E.
Qed.

Lemma init_service_sessions_ok name (service : Service) w r w' :
  sessions_ok (this w) →
  init_service name service w = (r, w') →
  sessions_ok (this w').
Proof.
  intros Hok E. destruct r as [[]|e].
  - pose proof (init_service_returns _ _ _ _ E) as Hr.
    destruct (build service) as [b|]; [|by rewrite Hr].
    destruct Hr as (task & df & st & container & _ & _ & _ & _ & ->).
    unfold sessions_ok, with_session. simpl. intros n c Hl.
    destruct (decide (name = n)) as [<-|Hne].
    + rewrite lookup_insert_eq in Hl. injection Hl as <-. by repeat split.
    + rewrite lookup_insert_ne in Hl by done. by apply Hok.
  - by destruct (init_service_throws _ _ _ _ _ E) as [-> _].
Qed.

Lemma init_loop_sessions_ok (svcs : list (string * Service)) : ∀ w r w',
  sessions_ok (this w) →
  init_loop svcs w = (r, w') →
  sessions_ok (this w').
Proof.
  induction svcs as [|[n s] svcs IH]; intros w r w' Hok.
  - by intros [= <- <-].
  - simpl. unfold mbind, M_bind.
    destruct (init_service n s w) as [[[]|e] w1] eqn:E1;
      pose proof (init_service_sessions_ok _ _ _ _ _ Hok E1) as Hok1.
    + by apply IH.
    + by intros [= <- <-].
Qed.

(** X11.  [init] keeps the sessions well formed, however it ends: if
    beforehand every stored session has its diff engine and its watcher on
    the session's context, a watcher that skips the initial scan, and the
    three listeners that name the service it is stored under, then so it
    is afterwards. *)
Theorem init_sessions_ok fuel w r w' :
  sessions_ok (this w) →
  init fuel w = Some (r, w') →
  sessions_ok (this w').
Proof.
  intros Hok. rewrite init_eq.
  destruct (awaitDeviceStateSettle fuel _) as [[[[]|e1] w1]|] eqn:Ea; [| |done];
    destruct (await_cases _ _ _ _ Ea) as (o & t & Hw1 & _);
    assert (Hok1 : sessions_ok (this w1))
      by (rewrite Hw1; unfold sessions_ok; simpl;
          by rewrite containers_cache).
  - intros [= E]. by apply (init_loop_sessions_ok _ _ _ _ Hok1 E).
  - by intros [= <- <-].
Qed.

Lemma filter_watch_quiet (t : list Effect) :
  Forall (λ e, is_session_effect e = false) t →
  List.filter is_ChokidarWatch t = [].
Proof.
  induction 1 as [|e t He _ IH]; [done|]. simpl. rewrite IH.
  by destruct e.
Qed.

Lemma init_loop_watchers (svcs : list (string * Service)) : ∀ w w',
  init_loop svcs w = (Return (), w') →
  ∃ t, trace w' = trace w ++ t
       ∧ List.filter is_ChokidarWatch t = watched (this w) svcs.
Proof.
  induction svcs as [|[n s] svcs IH]; intros w w'.
  - intros [= <-]. exists []. by rewrite app_nil_r.
  - simpl. unfold mbind, M_bind.
    destruct (init_service n s w) as [[[]|e] w1] eqn:E1; [|done].
    intros E. destruct (IH _ _ E) as (t & Ht & Hf).
    destruct (init_service_frame _ _ _ _ _ E1) as (Hc & _).
    pose proof (init_service_returns _ _ _ _ E1) as Hr.
    unfold watched in Hf |- *. rewrite Hc in Hf.
    destruct (build s) as [b|].
    + destruct Hr as (task & df & st & container & _ & _ & _ & _ & ->).
      rewrite Ht.
      unfold with_session. simpl.
      eexists. split; [by rewrite <- app_assoc|].
      rewrite List.filter_app, Hf. done.
    + rewrite Hr in Ht. by exists t.
Qed.

(** X12.  When [init] returns it has started one watcher for each service
    that declares a build, in enumeration order and no other: on [.] in
    the build context joined with the context of the build, without the
    initial scan.  Services that share a context get a watcher each. *)
Theorem init_watchers fuel w w' :
  init fuel w = Some (Return (), w') →
  ∃ t, trace w' = trace w ++ t
       ∧ List.filter is_ChokidarWatch t
         = watched (this w) (services (composition (this w))).
Proof.
  rewrite init_eq.
  destruct (awaitDeviceStateSettle fuel _) as [[[[]|e1] w1]|] eqn:Ea;
    [|done|done].
  intros [= E].
  destruct (await_cases _ _ _ _ Ea) as (o & t & Hw1 & Hq & _).
  destruct (init_loop_watchers _ _ _ E) as (t' & Ht & Hf).
  rewrite Hw1 in Ht, Hf. simpl in Ht, Hf.
  rewrite composition_cache in Hf.
  exists (LogLivepush waiting_line :: t ++ t'). split.
  - rewrite Ht. by rewrite <- !app_assoc.
  - simpl. rewrite List.filter_app, (filter_watch_quiet _ Hq), Hf.
    unfold watched. by destruct o.
Qed.

(** *** More on the handler *)

Lemma nil_or_not {A} (xs : list A) : xs = [] ∨ xs ≠ [].
Proof. destruct xs; [by left|by right]. Qed.

Lemma diff_event_throw fsEvent w e :
  classify fsEvent = Throw e →
  diff_event fsEvent w = (Throw e, after w [LogDebug (event_line fsEvent)]).
Proof. intros H. unfold diff_event. step_m. by rewrite H. Qed.

Lemma diff_event_no_session fsEvent w updates :
  classify fsEvent = Return updates →
  containers (this w) !! serviceName fsEvent = None →
  ∃ msg, diff_event fsEvent w
         = (Throw (TypeError msg), after w [LogDebug (event_line fsEvent)]).
Proof.
  intros Hc Hs. eexists. unfold diff_event. step_m.
  rewrite Hc. simpl. by rewrite Hs.
Qed.

(** What the handler does up to its first pending promise, in every
    case. *)
Lemma handleFSEvent_begin_cases fsEvent w :
  (∃ e, handleFSEvent_begin fsEvent w
        = (Throw e, after w [LogDebug (event_line fsEvent)]))
  ∨ (∃ updates c,
       classify fsEvent = Return updates
       ∧ containers (this w) !! serviceName fsEvent = Some c
       ∧ handleFSEvent_begin fsEvent w
         = (Return None,
            after w [LogDebug (event_line fsEvent);
                     ActionsNeeded (livepush c) updates []]))
  ∨ (∃ updates c,
       classify fsEvent = Return updates
       ∧ containers (this w) !! serviceName fsEvent = Some c
       ∧ ex_actions (execution_of fsEvent w updates c) ≠ []
       ∧ handleFSEvent_begin fsEvent w
         = (Return (Some (execution_of fsEvent w updates c)),
            after w (start_of fsEvent (execution_of fsEvent w updates c)))).
Proof.
  destruct (classify fsEvent) as [updates|e] eqn:Hc.
  - destruct (containers (this w) !! serviceName fsEvent) as [c|] eqn:Hs.
    + destruct (nil_or_not (ex_actions (execution_of fsEvent w updates c)))
        as [Ha|Hne].
      * right. left. exists updates, c. do 2 (split; [done|]).
        by apply handleFSEvent_begin_no_actions.
      * right. right. exists updates, c. do 3 (split; [done|]).
        by apply handleFSEvent_begin_actions.
    + left. destruct (diff_event_no_session _ _ _ Hc Hs) as (msg & E).
      eexists. unfold handleFSEvent_begin, mbind, M_bind at 1. by rewrite E.
  - left. exists e. unfold handleFSEvent_begin, mbind, M_bind at 1.
    by rewrite (diff_event_throw _ _ _ Hc).
Qed.

(** X13.  An event of a known kind for a service that has no session makes
    the handler throw a [TypeError] right after its debug line: the diff
    engine is not asked, nothing is executed, and in the event loop the
    error is left unhandled. *)
Theorem handleFSEvent_no_session fsEvent l updates :
  let w := world l in
  classify fsEvent = Return updates →
  containers (this w) !! serviceName fsEvent = None →
  ∃ msg,
    handleFSEvent fsEvent w
    = (Throw (TypeError msg), after w [LogDebug (event_line fsEvent)])
    ∧ fire fsEvent l
      = {| world := after w [LogDebug (event_line fsEvent)];
           inflight := inflight l;
           unhandled := unhandled l ++ [TypeError msg] |}.
Proof.
  intros w Hc Hs. destruct (diff_event_no_session _ _ _ Hc Hs) as (msg & E).
  exists msg. split.
  - unfold handleFSEvent, mbind, M_bind at 1. by rewrite E.
  - unfold fire, handleFSEvent_begin, mbind, M_bind at 1.
    change (world l) with w. by rewrite E.
Qed.

(** X14.  Whatever the event, the handler calls [performActions] only
    for actions the diff engine has just asked for: if it calls it at all,
    it does so once, on the diff engine of the session of the event's
    service, with the batch of this event and the non-empty list that
    [actionsNeeded] answered for that batch.  The manager is left as it
    was. *)
Theorem handleFSEvent_performs_only_needed fsEvent w :
  ∃ t,
    snd (handleFSEvent fsEvent w) = after w t
    ∧ ∀ lp updates actions,
        PerformActions lp updates actions ∈ t →
        actions ≠ []
        ∧ classify fsEvent = Return updates
        ∧ (∃ c, containers (this w) !! serviceName fsEvent = Some c
                ∧ lp = livepush c)
        ∧ actions
          = actionsNeeded (trace w ++ [LogDebug (event_line fsEvent)])
              lp updates
        ∧ ActionsNeeded lp updates actions ∈ t
        ∧ List.filter is_PerformActions t
          = [PerformActions lp updates actions].
Proof.
  destruct (classify fsEvent) as [updates|e] eqn:Hc.
  - destruct (containers (this w) !! serviceName fsEvent) as [c|] eqn:Hs.
    + destruct (nil_or_not (ex_actions (execution_of fsEvent w updates c)))
        as [Ha|Hne].
      * eexists. split.
        { unfold handleFSEvent, mbind, M_bind at 1.
          rewrite (diff_event_known _ _ _ _ Hc Hs).
          change (actionsNeeded _ _ _)
            with (ex_actions (execution_of fsEvent w updates c)).
          rewrite Ha. reflexivity. }
        intros lp u acts H.
        repeat (apply elem_of_cons in H as [H|H]; [discriminate H|]).
        by apply elem_of_nil in H.
      * eexists. split.
        { rewrite (handleFSEvent_actions _ _ _ _ Hc Hs Hne). reflexivity. }
        intros lp u actions H. unfold start_of, end_of in H |- *.
        simpl in H.
        assert (Hcall : PerformActions lp u actions
                        = PerformActions (livepush c) updates
                            (ex_actions (execution_of fsEvent w updates c))).
        { do 3 (apply elem_of_cons in H as [H|H]; [discriminate H|]).
          apply elem_of_cons in H as [H|H]; [exact H|].
          apply elem_of_cons in H as [H|H]; [discriminate H|].
          destruct (performActions _ _ _ _) as [[]|e];
            repeat (apply elem_of_cons in H as [H|H]; [discriminate H|]);
            by apply elem_of_nil in H. }
        injection Hcall as -> -> ->. split; [done|]. split; [done|].
        split; [by exists c|]. split; [done|]. split.
        { simpl. apply elem_of_cons. right. by left. }
        simpl. by destruct (performActions _ _ _ _) as [[]|e].
    + destruct (diff_event_no_session _ _ _ Hc Hs) as (msg & E).
      eexists. split.
      { unfold handleFSEvent, mbind, M_bind at 1. rewrite E. reflexivity. }
      intros lp u acts H.
      repeat (apply elem_of_cons in H as [H|H]; [discriminate H|]).
      by apply elem_of_nil in H.
  - eexists. split.
    { unfold handleFSEvent, mbind, M_bind at 1.
      rewrite (diff_event_throw _ _ _ Hc). reflexivity. }
    intros lp u acts H.
    repeat (apply elem_of_cons in H as [H|H]; [discriminate H|]).
    by apply elem_of_nil in H.
Qed.

(** *** More on the event loop *)

Lemma after_nil w : after w [] = w.
Proof. unfold after. rewrite app_nil_r. by destruct w. Qed.

Lemma after_after w (t1 t2 : list Effect) :
  after (after w t1) t2 = after w (t1 ++ t2).
Proof. unfold after. simpl. by rewrite app_assoc. Qed.

(** What firing an event does to a loop, in every case. *)
Lemma fire_cases fsEvent l :
  (∃ t e, fire fsEvent l
          = {| world := after (world l) t; inflight := inflight l;
               unhandled := unhandled l ++ [e] |})
  ∨ (∃ t updates c,
       classify fsEvent = Return updates
       ∧ containers (this (world l)) !! serviceName fsEvent = Some c
       ∧ fire fsEvent l
         = {| world := after (world l) t; inflight := inflight l;
              unhandled := unhandled l |})
  ∨ (∃ t updates c,
       classify fsEvent = Return updates
       ∧ containers (this (world l)) !! serviceName fsEvent = Some c
       ∧ ex_actions (execution_of fsEvent (world l) updates c) ≠ []
       ∧ fire fsEvent l
         = {| world := after (world l) t;
              inflight := inflight l
                          ++ [execution_of fsEvent (world l) updates c];
              unhandled := unhandled l |}).
Proof.
  unfold fire.
  destruct (handleFSEvent_begin_cases fsEvent (world l))
    as [(e & ->)|[(u & c & Hc & Hs & ->)|(u & c & Hc & Hs & Ha & ->)]].
  - left. by eexists _, e.
  - right. left. by eexists _, u, c.
  - right. right. by eexists _, u, c.
Qed.

Lemma fire_frame fsEvent l :
  ∃ t, world (fire fsEvent l) = after (world l) t.
Proof.
  destruct (fire_cases fsEvent l)
    as [(t & e & ->)|[(t & u & c & _ & _ & ->)|(t & u & c & _ & _ & _ & ->)]];
    by exists t.
Qed.

Lemma settle_frame i (r : Completion unit) l :
  ∃ t, world (settle i r l) = after (world l) t.
Proof.
  unfold settle. destruct (inflight l !! i) as [x|].
  - rewrite executeActions_resume_eq.
    destruct r as [[]|e]; by eexists.
  - exists []. by rewrite after_nil.
Qed.

Lemma fires_frame (evs : list ContextEvent) : ∀ l,
  ∃ t, world (foldl (λ l' ev, fire ev l') l evs) = after (world l) t.
Proof.
  induction evs as [|ev evs IH]; intros l.
  - exists []. by rewrite after_nil.
  - simpl. destruct (IH (fire ev l)) as (t2 & ->).
    destruct (fire_frame ev l) as (t1 & ->).
    exists (t1 ++ t2). apply after_after.
Qed.

Lemma tick_frame l (t : Tick) : ∃ t', world (tick l t) = after (world l) t'.
Proof.
  destruct t as [name kind path|i r]; simpl.
  - destruct (containers (this (world l)) !! name) as [c|].
    + destruct (throws_error (monitor c) kind); [|apply fires_frame].
      exists []. by rewrite after_nil.
    + exists []. by rewrite after_nil.
  - apply settle_frame.
Qed.

(** X16.  Running the event loop never changes the manager: whatever the
    notifications and however the executions settle, the sessions, the
    cached status and the other fields are those [init] left; the loop
    only adds to the record of what happened. *)
Theorem run_frame (ts : list Tick) l :
  ∃ t, world (run ts l) = after (world l) t.
Proof.
  unfold run. revert l. induction ts as [|tk ts IH]; intros l.
  - exists []. by rewrite after_nil.
  - simpl. destruct (IH (tick l tk)) as (t2 & ->).
    destruct (tick_frame l tk) as (t1 & ->).
    exists (t1 ++ t2). apply after_after.
Qed.

Lemma three_kinds_classify (kind path name : string) :
  kind ∈ three_kinds →
  ∃ updates,
    classify {| type := kind; filename := path; serviceName := name |}
    = Return updates.
Proof.
  intros H. unfold three_kinds in H.
  repeat (apply elem_of_cons in H as [->|H]; [by eexists|]).
  by apply elem_of_nil in H.
Qed.

Lemma throws_error_fs_listeners (m : FSWatcher) (name kind : string) :
  listeners m = fs_listeners name →
  throws_error m kind = bool_decide (kind = "error").
Proof.
  intros Hl. unfold throws_error, listens. rewrite Hl.
  destruct (String.eqb_spec kind "error") as [->|Hne].
  - by rewrite bool_decide_eq_true_2.
  - by rewrite bool_decide_eq_false_2.
Qed.

Lemma error_not_three_kinds : ("error" ∉ three_kinds).
Proof.
  intros H. unfold three_kinds in H.
  repeat (apply elem_of_cons in H as [H|H]; [discriminate H|]).
  by apply elem_of_nil in H.
Qed.

(** What a notification does to a loop whose sessions are well formed:
    nothing, or it fires the one event of that kind and path under the
    name of the session, or, for an [error] event, the watcher throws. *)
Lemma tick_notify_cases l (name kind path : string) :
  sessions_ok (this (world l)) →
  tick l (Notify name kind path) = l
  ∧ (containers (this (world l)) !! name = None
     ∨ ((kind ∉ three_kinds) ∧ kind ≠ "error"))
  ∨ tick l (Notify name kind path)
    = fire {| type := kind; filename := path; serviceName := name |} l
    ∧ is_Some (containers (this (world l)) !! name)
    ∧ kind ∈ three_kinds
  ∨ tick l (Notify name kind path)
    = {| world := world l; inflight := inflight l;
         unhandled := unhandled l ++ [Rejection path] |}
    ∧ is_Some (containers (this (world l)) !! name)
    ∧ kind = "error".
Proof.
  intros Hok. simpl.
  destruct (containers (this (world l)) !! name) as [c|] eqn:Hs; [|by auto].
  destruct (Hok _ _ Hs) as (_ & _ & _ & Hl).
  rewrite (throws_error_fs_listeners _ name _ Hl).
  destruct (decide (kind = "error")) as [->|Hne].
  { rewrite bool_decide_eq_true_2 by done. right. right. by eauto. }
  rewrite bool_decide_eq_false_2 by done.
  rewrite (emitted_fs_listeners _ name _ _ Hl).
  destruct (decide (kind ∈ three_kinds)) as [Hk|Hk].
  - rewrite bool_decide_eq_true_2 by done. right. left. by eauto.
  - rewrite bool_decide_eq_false_2 by done. left. by auto.
Qed.

(** X17.  What a notification from a watcher of a well-formed session
    can do.  An add, change or unlink notification never fails on the
    spot: the listeners hand the handler an event of that kind under the
    name of a session that exists, so neither the unknown-event error nor
    the [TypeError] of a missing session can arise.  A notification of
    another kind does nothing at all, with one exception: [init] registers
    no listener for [error], so an [error] notification makes the watcher
    throw its error, which nobody handles; the handler is not run, no
    execution starts and the manager is unchanged.  A notification for a
    service without a session does nothing. *)
Theorem notify_fails_only_on_error l (name kind path : string) :
  sessions_ok (this (world l)) →
  (kind ≠ "error" → unhandled (tick l (Notify name kind path)) = unhandled l)
  ∧ (kind ∉ three_kinds → kind ≠ "error" → tick l (Notify name kind path) = l)
  ∧ (containers (this (world l)) !! name = None →
     tick l (Notify name kind path) = l)
  ∧ (kind = "error" → is_Some (containers (this (world l)) !! name) →
     tick l (Notify name kind path)
     = {| world := world l; inflight := inflight l;
          unhandled := unhandled l ++ [Rejection path] |}).
Proof.
  intros Hok.
  destruct (tick_notify_cases l name kind path Hok)
    as [[E Hwhy]|[(E & [c Hs] & Hk)|(E & [c Hs] & ->)]].
  - rewrite E. do 3 (split; [done|]).
    intros -> [c Hs]. destruct Hwhy as [Hn|[_ Hne]]; [|done].
    rewrite Hs in Hn. discriminate Hn.
  - split; [|split; [done|split; [by rewrite Hs|]]].
    + intros _. rewrite E.
      destruct (three_kinds_classify kind path name Hk) as (u & Hc).
      set (ev := {| type := kind; filename := path; serviceName := name |})
        in *.
      destruct (fire_cases ev l)
        as [(t & e & Ef)|[(t & u' & c' & _ & _ & ->)|(t & u' & c' & _ & _ & _ & ->)]];
        [|done|done].
      exfalso. unfold fire in Ef.
      destruct (nil_or_not (ex_actions (execution_of ev (world l) u c)))
        as [Ha|Ha].
      * rewrite (handleFSEvent_begin_no_actions ev _ u c Hc Hs Ha) in Ef.
        apply (f_equal (λ l', length (unhandled l'))) in Ef. simpl in Ef.
        rewrite length_app in Ef. simpl in Ef. lia.
      * rewrite (handleFSEvent_begin_actions ev _ u c Hc Hs Ha) in Ef.
        apply (f_equal (λ l', length (unhandled l'))) in Ef. simpl in Ef.
        rewrite length_app in Ef. simpl in Ef. lia.
    + intros ->. by destruct error_not_three_kinds.
  - split; [done|]. split; [done|]. split; [by rewrite Hs|]. done.
Qed.

Lemma fire_executions_ok fsEvent l :
  Forall (execution_ok (this (world l))) (inflight l) →
  Forall (execution_ok (this (world (fire fsEvent l))))
    (inflight (fire fsEvent l)).
Proof.
  intros Hall.
  destruct (fire_cases fsEvent l)
    as [(t & e & ->)|[(t & u & c & _ & _ & ->)|(t & u & c & Hc & Hs & Ha & ->)]];
    simpl; try done.
  apply Forall_app. split; [done|]. constructor; [|done].
  split; [done|]. by exists c.
Qed.

Lemma settle_executions_ok i (r : Completion unit) l :
  Forall (execution_ok (this (world l))) (inflight l) →
  Forall (execution_ok (this (world (settle i r l))))
    (inflight (settle i r l)).
Proof.
  intros Hall. unfold settle.
  destruct (inflight l !! i) as [x|]; [|done].
  rewrite executeActions_resume_eq.
  destruct r as [[]|e]; simpl; by apply Forall_delete.
Qed.

Lemma fires_executions_ok (evs : list ContextEvent) : ∀ l,
  Forall (execution_ok (this (world l))) (inflight l) →
  let l' := foldl (λ l' ev, fire ev l') l evs in
  Forall (execution_ok (this (world l'))) (inflight l').
Proof.
  induction evs as [|ev evs IH]; intros l Hall; [done|].
  simpl. apply IH. by apply fire_executions_ok.
Qed.

Lemma tick_executions_ok l (t : Tick) :
  Forall (execution_ok (this (world l))) (inflight l) →
  Forall (execution_ok (this (world (tick l t)))) (inflight (tick l t)).
Proof.
  intros Hall. destruct t as [name kind path|i r]; simpl.
  - destruct (containers (this (world l)) !! name) as [c|]; [|done].
    destruct (throws_error (monitor c) kind); [done|].
    by apply fires_executions_ok.
  - by apply settle_executions_ok.
Qed.

(** X18.  Every execution in flight was started with actions to run and
    on the diff engine of the session stored under its service name: if
    that holds of the executions in flight in a loop, it holds after any
    run of the loop.  No batch is ever executed against the container of
    another session, and no execution is started for an empty list. *)
Theorem run_executions_ok (ts : list Tick) l :
  Forall (execution_ok (this (world l))) (inflight l) →
  Forall (execution_ok (this (world (run ts l)))) (inflight (run ts l)).
Proof.
  unfold run. revert l. induction ts as [|tk ts IH]; intros l Hall; [done|].
  simpl. apply IH. by apply tick_executions_ok.
Qed.

(** X19.  A notification from the watcher of one service starts no
    execution for another: with well-formed sessions, the executions in
    flight for any other service are the same before and after. *)
Theorem notify_other_service l (name kind path other : string) :
  sessions_ok (this (world l)) →
  name ≠ other →
  inflight_of other (tick l (Notify name kind path)) = inflight_of other l.
Proof.
  intros Hok Hne.
  destruct (tick_notify_cases l name kind path Hok)
    as [[-> _]|[(-> & _)|(-> & _)]]; [done| |done].
  set (ev := {| type := kind; filename := path; serviceName := name |}).
  destruct (fire_cases ev l)
    as [(t & e & ->)|[(t & u & c & _ & _ & ->)|(t & u & c & _ & _ & _ & ->)]];
    try done.
  unfold inflight_of. simpl. rewrite List.filter_app. simpl.
  rewrite (eqb_false_of_ne _ _ Hne). by rewrite app_nil_r.
Qed.

End Properties.

(** ** The statements at concrete inputs *)

Import Demo.


Lemma classify_by_kind_witness :
  ("rename" ∉ three_kinds)
  ∧ classify add_readme
    = Return {| updated := []; added := ["README.md"]; deleted := [] |}
  ∧ classify change_app
    = Return {| updated := ["app.js"]; added := []; deleted := [] |}
  ∧ classify rename_app = Throw (unknown_event "rename").
Proof.
  assert (H : "rename" ∉ three_kinds) by by_evaluation.
  split; [exact H|].
  destruct (classify_by_kind "add" "README.md" "web") as (Ha & _).
  destruct (classify_by_kind "change" "app.js" "web") as (_ & Hc & _).
  destruct (classify_by_kind "rename" "app.js" "web") as (_ & _ & _ & Hr).
  split; [apply Ha; reflexivity|].
  split; [apply Hc; reflexivity|].
  apply Hr, H.
Defined.

Lemma handleFSEvent_unknown_kind_witness :
  (type rename_app ∉ three_kinds)
  ∧ handleFSEvent (X := busy) rename_app watching
    = (Throw (unknown_event "rename"),
       after watching [LogDebug (event_line (X := busy) rename_app)])
  ∧ fire (X := busy) rename_app idle
    = {| world := after watching [LogDebug (event_line (X := busy) rename_app)];
         inflight := [];
         unhandled := [unknown_event "rename"] |}.
Proof.
  assert (H : type rename_app ∉ three_kinds) by by_evaluation.
  split; [exact H|].
  exact (handleFSEvent_unknown_kind (X := busy) rename_app watching idle H).
Defined.

Lemma handleFSEvent_no_actions_witness :
  let updates := {| updated := ["app.js"]; added := []; deleted := [] |} in
  let w' := after watching
              [LogDebug (event_line (X := quiet) change_app);
               ActionsNeeded web_lp updates []] in
  classify change_app = Return updates
  ∧ containers (this watching) !! "web" = Some web_session
  ∧ actionsNeeded (Collaborators := quiet)
      (trace watching ++ [LogDebug (event_line (X := quiet) change_app)])
      web_lp updates = []
  ∧ handleFSEvent (X := quiet) change_app watching = (Return (), w')
  ∧ fire (X := quiet) change_app idle
    = {| world := w'; inflight := []; unhandled := [] |}.
Proof.
  intros updates w'.
  assert (Hc : classify change_app = Return updates) by reflexivity.
  assert (Hs : containers (this (world idle)) !! serviceName change_app
               = Some web_session) by reflexivity.
  assert (Ha : actionsNeeded (Collaborators := quiet)
                 (trace (world idle)
                  ++ [LogDebug (event_line (X := quiet) change_app)])
                 (livepush web_session) updates = []) by reflexivity.
  split; [exact Hc|]. split; [exact Hs|]. split; [exact Ha|].
  exact (handleFSEvent_no_actions (X := quiet) change_app idle updates
           web_session Hc Hs Ha).
Defined.

Lemma second_execution_does_not_wait_witness :
  let u1 := {| updated := ["app.js"]; added := []; deleted := [] |} in
  let u2 := {| updated := []; added := ["README.md"]; deleted := [] |} in
  let l1 := fire (X := busy) change_app idle in
  let l2 := fire (X := busy) add_readme l1 in
  let x1 := execution_of (X := busy) change_app watching u1 web_session in
  let x2 := execution_of (X := busy) add_readme (world l1) u2 web_session in
  (classify change_app = Return u1
   ∧ containers (this watching) !! "web" = Some web_session
   ∧ ex_actions x1 ≠ []
   ∧ classify add_readme = Return u2
   ∧ ex_actions x2 ≠ [])
  ∧ inflight l2 = [x1; x2]
  ∧ trace (world l2)
    = start_of (X := busy) change_app x1 ++ start_of (X := busy) add_readme x2
  ∧ (serviceName change_app = serviceName add_readme → ¬ serialized l2).
Proof.
  intros u1 u2 l1 l2 x1 x2.
  assert (Hc1 : classify change_app = Return u1) by reflexivity.
  assert (Hs : containers (this (world idle)) !! "web" = Some web_session)
    by reflexivity.
  assert (Ha1 : ex_actions x1 ≠ []) by discriminate.
  assert (Hc2 : classify add_readme = Return u2) by reflexivity.
  assert (Ha2 : ex_actions x2 ≠ []) by discriminate.
  split; [done|].
  exact (second_execution_does_not_wait (X := busy) change_app add_readme idle
           u1 u2 web_session web_session Hc1 Hs Ha1 Hc2 Hs Ha2).
Defined.

Lemma awaitDeviceStateSettle_settles_witness :
  let w := fresh [("web", web)] [web_task] in
  (∀ k, k < 2 → ∃ st, getStatus (Collaborators := slow) (0 + k) = Return st
                      ∧ appState st ≠ "applied")
  ∧ getStatus (Collaborators := slow) (0 + 2) = Return applied
  ∧ appState applied = "applied"
  ∧ 2 < 3
  ∧ (∃ w', awaitDeviceStateSettle (X := slow) 3 w = Some (Return (), w')
           ∧ calls_made (trace w') = 0 + (2 + 1)
           ∧ lastDeviceStatus (this w') = Some applied)
  ∧ (∃ w', init (X := slow) 3 w
           = Some (init_loop (X := slow) [("web", web)] w')
           ∧ calls_made (trace w') = 0 + (2 + 1)
           ∧ lastDeviceStatus (this w') = Some applied).
Proof.
  intros w.
  assert (Hun : ∀ k, k < 2 →
            ∃ st, getStatus (Collaborators := slow)
                    (calls_made (trace w) + k) = Return st
                  ∧ appState st ≠ "applied").
  { intros k Hk. exists applying. split; [|discriminate].
    destruct k as [|[|k]]; [reflexivity|reflexivity|lia]. }
  assert (Hg : getStatus (Collaborators := slow) (calls_made (trace w) + 2)
               = Return applied) by reflexivity.
  assert (Ha : appState applied = "applied") by reflexivity.
  assert (Hf : 2 < 3) by lia.
  split; [exact Hun|]. split; [exact Hg|]. split; [exact Ha|].
  split; [exact Hf|].
  exact (awaitDeviceStateSettle_settles (X := slow) 2 3 w applied
           Hun Hg Ha Hf).
Defined.

Lemma getStatus_failure_aborts_witness :
  let w := fresh [("web", web)] [web_task] in
  let e := Rejection "ECONNREFUSED" in
  (∀ k, k < 2 → ∃ st, getStatus (Collaborators := offline) (0 + k) = Return st
                      ∧ appState st ≠ "applied")
  ∧ getStatus (Collaborators := offline) (0 + 2) = Throw e
  ∧ 2 < 3
  ∧ (∃ w' t, awaitDeviceStateSettle (X := offline) 3 w = Some (Throw e, w')
             ∧ trace w' = trace w ++ t ++ [GetStatus (Throw e)]
             ∧ calls_made t = 2)
  ∧ (∃ w' t, init (X := offline) 3 w = Some (Throw e, w')
             ∧ containers (this w') = containers (this w)
             ∧ trace w' = trace w ++ t ++ [GetStatus (Throw e)]
             ∧ calls_made t = 2
             ∧ Forall (λ e, is_session_effect e = false) t).
Proof.
  intros w e.
  assert (Hun : ∀ k, k < 2 →
            ∃ st, getStatus (Collaborators := offline)
                    (calls_made (trace w) + k) = Return st
                  ∧ appState st ≠ "applied").
  { intros k Hk. exists applying. split; [|discriminate].
    destruct k as [|[|k]]; [reflexivity|reflexivity|lia]. }
  assert (Hg : getStatus (Collaborators := offline)
                 (calls_made (trace w) + 2) = Throw e) by reflexivity.
  assert (Hf : 2 < 3) by lia.
  split; [exact Hun|]. split; [exact Hg|]. split; [exact Hf|].
  exact (getStatus_failure_aborts (X := offline) 2 3 w e Hun Hg Hf).
Defined.

Lemma init_service_image_witness :
  let w := settled [("db", db)] [db_task] in
  build db = None
  ∧ (is_Some (task_of (buildTasks (this w)) "db") →
     init_service (X := busy) "db" db w = (Return (), w))
  ∧ (task_of (buildTasks (this w)) "db" = None →
     init_service (X := busy) "db" db w = (Throw (no_build_task "db"), w)).
Proof.
  intros w.
  assert (Hb : build db = None) by reflexivity.
  split; [exact Hb|].
  exact (init_service_image (X := busy) "db" db w Hb).
Defined.


Lemma init_stops_at_first_refusal_witness :
  let w := fresh [("web", web); ("db", db)] [web_task] in
  let w1 := settled [("web", web); ("db", db)] [web_task] in
  (awaitDeviceStateSettle (X := busy) 1 (after w [LogLivepush waiting_line])
   = Some (Return (), w1)
   ∧ lastDeviceStatus (this w1) = Some applied
   ∧ Exists (λ p, refusal (buildTasks (this w1)) applied p.1 p.2 ≠ None)
       (services (composition (this w1))))
  ∧ ∃ pre name service post e w',
      services (composition (this w1)) = pre ++ (name, service) :: post
      ∧ Forall (λ p, refusal (buildTasks (this w1)) applied p.1 p.2 = None) pre
      ∧ (refusal (buildTasks (this w1)) applied name service = Some e
         ∨ ∃ b task df container,
             build service = Some b
             ∧ task_of (buildTasks (this w1)) name = Some task
             ∧ dockerfile task = Some df
             ∧ container_of applied name = Some container
             ∧ newLivepush (Collaborators := busy) (trace w')
                 (livepush
                    (session_for (X := busy) (this w1) name b df container))
               = Some e)
      ∧ init (X := busy) 1 w = Some (Throw e, w')
      ∧ init_loop (X := busy) pre w1 = (Return (), w')
      ∧ init_service (X := busy) name service w' = (Throw e, w')
      ∧ dom (containers (this w'))
        = dom (containers (this w1)) ∪ list_to_set (built pre).
Proof.
  intros w w1.
  assert (Hs : awaitDeviceStateSettle (X := busy) 1
                 (after w [LogLivepush waiting_line])
               = Some (Return (), w1)) by reflexivity.
  assert (Hst : lastDeviceStatus (this w1) = Some applied) by reflexivity.
  assert (Hex : Exists
                  (λ p, refusal (buildTasks (this w1)) applied p.1 p.2 ≠ None)
                  (services (composition (this w1)))).
  { apply Exists_cons_tl, Exists_cons_hd. discriminate. }
  split; [done|].
  exact (init_stops_at_first_refusal (X := busy) 1 w w1 applied Hs Hst Hex).
Defined.

Lemma executeActions_notice_witness :
  let updates := {| updated := ["app.js"]; added := []; deleted := [] |} in
  let call := PerformActions web_lp updates ["layer"] in
  ∃ t, executeActions (X := busy) ["layer"] updates web_lp "web" watching
       = (Return (), after watching (call :: t))
       ∧ List.filter is_PerformActions t = []
       ∧ (LogLivepush (restarting_line "web") ∈ t ↔ Return () = Return ())
       ∧ (∀ e, Return () = Throw e →
            t = [PerformActionsSettled web_lp updates ["layer"] (Return ())]).
Proof.
  intros updates call.
  exact (executeActions_notice (X := busy) ["layer"] updates web_lp "web"
           watching).
Defined.

(** The scenario of one built service web and a change of app.js that
    needs one action group: one call of [performActions] with the batch
    and the group, then the restart notice. *)
Example change_of_app_js :
  handleFSEvent (X := busy) change_app watching
  = (Return (),
     after watching
       [ LogDebug "Got an filesystem event for service: web. Event: change app.js";
         ActionsNeeded web_lp
           {| updated := ["app.js"]; added := []; deleted := [] |} ["layer"];
         LogLivepush "Detected changes for container web, updating...";
         PerformActions web_lp
           {| updated := ["app.js"]; added := []; deleted := [] |} ["layer"];
         PerformActionsSettled web_lp
           {| updated := ["app.js"]; added := []; deleted := [] |} ["layer"]
           (Return ());
         LogLivepush "Restarting container for service web" ]).
Proof. reflexivity. Qed.

(** The one service web, with a diff engine whose constructor throws:
    [init] throws that error, and neither a watcher nor a session is
    made. *)
Example constructor_throws :
  init (X := broken) 1 (fresh [("web", web)] [web_task])
  = Some (Throw unparsed, settled [("web", web)] [web_task]).
Proof. reflexivity. Qed.

(** ** Where the code departs from what is claimed of it *)

(** C1.  Two change events for the service web, the second one handled
    while the execution the first one started has not settled: both
    executions are in flight, so executions of web are not serialized. *)
Lemma same_service_executions_overlap :
  let l := run (X := busy)
             [Notify "web" "change" "app.js"; Notify "web" "change" "db.js"]
             idle in
  length (inflight_of "web" l) = 2 ∧ ¬ serialized l.
Proof.
  intros l.
  assert (H : length (inflight_of "web" l) = 2) by (vm_compute; reflexivity).
  split; [exact H|]. intros Hser. specialize (Hser "web"). lia.
Qed.

(** C2.  The services web, which qualifies, and db, for which there is no
    build task: [init] throws for db, and the session made for web before
    that is still stored. *)
Lemma init_leaves_sessions_behind :
  ∃ w', init (X := busy) 1 (fresh [("web", web); ("db", db)] [web_task])
        = Some (Throw (no_build_task "db"), w')
        ∧ containers (this w') !! "web" = Some web_session
        ∧ containers (this w') ≠ ∅.
Proof.
  eexists. split; [vm_compute; reflexivity|].
  split; [vm_compute; reflexivity|].
  intros H. apply (f_equal (λ m, m !! "web")) in H.
  vm_compute in H. discriminate.
Qed.


(** C6.  The one service db, which declares no build, and no build task:
    [init] does not pass db over, it throws. *)
Lemma image_service_without_task_throws :
  let w := settled [("db", db)] [] in
  init_service (X := busy) "db" db w = (Throw (no_build_task "db"), w)
  ∧ ∃ w', init (X := busy) 1 (fresh [("db", db)] [])
          = Some (Throw (no_build_task "db"), w').
Proof.
  intros w. split; [reflexivity|]. eexists. vm_compute. reflexivity.
Qed.

(** ** The further statements at concrete inputs *)

Lemma classify_injective_witness :
  let updates := {| updated := ["app.js"]; added := []; deleted := [] |} in
  let other :=
    {| type := "change"; filename := "app.js"; serviceName := "db" |} in
  classify change_app = Return updates
  ∧ classify other = Return updates
  ∧ type change_app = type other
  ∧ filename change_app = filename other
  ∧ length (updated updates) + length (added updates)
    + length (deleted updates) = 1.
Proof.
  intros updates other.
  assert (H1 : classify change_app = Return updates) by reflexivity.
  assert (H2 : classify other = Return updates) by reflexivity.
  split; [exact H1|]. split; [exact H2|].
  exact (classify_injective change_app other updates H1 H2).
Defined.

Lemma awaitDeviceStateSettle_never_gives_up_witness :
  let w := fresh [("web", web)] [web_task] in
  (∀ k, ∃ st, getStatus (Collaborators := stuck) (0 + k) = Return st
              ∧ appState st ≠ "applied")
  ∧ awaitDeviceStateSettle (X := stuck) 7 w = None
  ∧ init (X := stuck) 7 w = None.
Proof.
  intros w.
  assert (Hun : ∀ k, ∃ st, getStatus (Collaborators := stuck)
                             (calls_made (trace w) + k) = Return st
                           ∧ appState st ≠ "applied").
  { intros k. exists applying. split; [reflexivity|discriminate]. }
  split; [exact Hun|].
  exact (awaitDeviceStateSettle_never_gives_up (X := stuck) 7 w Hun).
Defined.

Lemma awaitDeviceStateSettle_trace_witness :
  let w := fresh [("web", web)] [web_task] in
  let sts := [applying; applying] in
  let t := polls sts ++ [GetStatus (Return applied)] in
  ((∀ k st, sts !! k = Some st →
      getStatus (Collaborators := slow) (0 + k) = Return st
      ∧ appState st ≠ "applied")
   ∧ getStatus (Collaborators := slow) (0 + length sts) = Return applied
   ∧ appState applied = "applied"
   ∧ length sts < 3)
  ∧ awaitDeviceStateSettle (X := slow) 3 w
    = Some (Return (),
            {| this := cache (Some applied) (this w); trace := trace w ++ t |})
  ∧ waited t = length sts * DEVICE_STATUS_SETTLE_CHECK_INTERVAL.
Proof.
  intros w sts t.
  assert (Hun : ∀ k st, sts !! k = Some st →
            getStatus (Collaborators := slow) (calls_made (trace w) + k)
            = Return st
            ∧ appState st ≠ "applied").
  { intros k st Hk. destruct k as [|[|k]]; simpl in Hk;
      [injection Hk as <-|injection Hk as <-|discriminate Hk];
      (split; [reflexivity|discriminate]). }
  assert (Hg : getStatus (Collaborators := slow)
                 (calls_made (trace w) + length sts) = Return applied)
    by reflexivity.
  assert (Ha : appState applied = "applied") by reflexivity.
  assert (Hf : length sts < 3) by (simpl; lia).
  split; [done|].
  exact (awaitDeviceStateSettle_trace (X := slow) sts 3 w applied
           Hun Hg Ha Hf).
Defined.

Lemma awaitDeviceStateSettle_frame_witness :
  let w := fresh [("web", web)] [web_task] in
  let w' := {| this := cache (Some applying) (this w);
               trace := polls [applying; applying]
                        ++ [GetStatus (Throw (Rejection "ECONNREFUSED"))] |} in
  awaitDeviceStateSettle (X := offline) 3 w
  = Some (Throw (Rejection "ECONNREFUSED"), w')
  ∧ containers (this w') = containers (this w)
  ∧ composition (this w') = composition (this w)
  ∧ buildTasks (this w') = buildTasks (this w)
  ∧ buildContext (this w') = buildContext (this w)
  ∧ docker (this w') = docker (this w)
  ∧ ∃ t, trace w' = trace w ++ t
         ∧ Forall (λ e, is_session_effect e = false) t.
Proof.
  intros w w'.
  assert (E : awaitDeviceStateSettle (X := offline) 3 w
              = Some (Throw (Rejection "ECONNREFUSED"), w')) by reflexivity.
  split; [exact E|].
  exact (awaitDeviceStateSettle_frame (X := offline) 3 w _ w' E).
Defined.

Lemma awaitDeviceStateSettle_returns_applied_witness :
  let w := fresh [("web", web)] [web_task] in
  let w' := {| this := cache (Some applied) (this w);
               trace := polls [applying; applying]
                        ++ [GetStatus (Return applied)] |} in
  awaitDeviceStateSettle (X := slow) 3 w = Some (Return (), w')
  ∧ ∃ st, lastDeviceStatus (this w') = Some st ∧ appState st = "applied".
Proof.
  intros w w'.
  assert (E : awaitDeviceStateSettle (X := slow) 3 w = Some (Return (), w'))
    by reflexivity.
  split; [exact E|].
  exact (awaitDeviceStateSettle_returns_applied (X := slow) 3 w w' E).
Defined.

Lemma init_loop_throw_keeps_prefix_witness :
  let w := settled both [web_task] in
  let w' := web_up both [web_task] in
  init_loop (X := busy) both w = (Throw (no_build_task "db"), w')
  ∧ ∃ pre name service post,
      both = pre ++ (name, service) :: post
      ∧ init_loop (X := busy) pre w = (Return (), w')
      ∧ init_loop (X := busy) (pre ++ [(name, service)]) w
        = (Throw (no_build_task "db"), w').
Proof.
  intros w w'.
  assert (E : init_loop (X := busy) both w = (Throw (no_build_task "db"), w'))
    by reflexivity.
  split; [exact E|].
  exact (init_loop_throw_keeps_prefix (X := busy) both w _ w' E).
Defined.

Lemma init_throws_witness :
  let w := fresh [("web", web)] [web_task] in
  let w' := settled [("web", web)] [web_task] in
  init (X := broken) 1 w = Some (Throw unparsed, w')
  ∧ ((∃ k, getStatus (Collaborators := broken) k = Throw unparsed)
     ∨ ∃ name service,
         (name, service) ∈ services (composition (this w))
         ∧ (unparsed = no_build_task name
            ∨ (is_Some (build service)
               ∧ (unparsed = no_dockerfile name
                  ∨ unparsed = no_container name
                  ∨ ∃ b task df status container,
                      build service = Some b
                      ∧ task_of (buildTasks (this w)) name = Some task
                      ∧ dockerfile task = Some df
                      ∧ lastDeviceStatus (this w') = Some status
                      ∧ container_of status name = Some container
                      ∧ newLivepush (Collaborators := broken) (trace w')
                          (livepush
                             (session_for (X := broken) (this w) name b df
                                container))
                        = Some unparsed)))).
Proof.
  intros w w'.
  assert (E : init (X := broken) 1 w = Some (Throw unparsed, w'))
    by reflexivity.
  split; [exact E|].
  exact (init_throws (X := broken) 1 w unparsed w' E).
Defined.

Lemma init_sessions_witness :
  let w := fresh both [web_task; db_task] in
  let w' := web_up both [web_task; db_task] in
  (NoDup (services (composition (this w))).*1
   ∧ init (X := busy) 1 w = Some (Return (), w'))
  ∧ ∃ status,
      lastDeviceStatus (this w') = Some status
      ∧ appState status = "applied"
      ∧ ∀ name service b,
          (name, service) ∈ services (composition (this w)) →
          build service = Some b →
          ∃ task df container,
            task_of (buildTasks (this w)) name = Some task
            ∧ dockerfile task = Some df
            ∧ container_of status name = Some container
            ∧ containers (this w') !! name
              = Some (session_for (X := busy) (this w) name b df container).
Proof.
  intros w w'.
  assert (Hnd : NoDup (services (composition (this w))).*1) by by_evaluation.
  assert (E : init (X := busy) 1 w = Some (Return (), w')) by reflexivity.
  split; [done|].
  exact (init_sessions (X := busy) 1 w w' Hnd E).
Defined.

Lemma init_sessions_dom_witness :
  let w := fresh both [web_task; db_task] in
  let w' := web_up both [web_task; db_task] in
  init (X := busy) 1 w = Some (Return (), w')
  ∧ dom (containers (this w'))
    = dom (containers (this w))
      ∪ list_to_set (built (services (composition (this w)))).
Proof.
  intros w w'.
  assert (E : init (X := busy) 1 w = Some (Return (), w')) by reflexivity.
  split; [exact E|].
  exact (init_sessions_dom (X := busy) 1 w w' E).
Defined.

Lemma init_returns_when_accepted_witness :
  let w := fresh both [web_task; db_task] in
  let w1 := settled both [web_task; db_task] in
  let accepted :=
    Forall (λ p, refusal (buildTasks (this w)) applied p.1 p.2 = None)
      (services (composition (this w))) in
  (awaitDeviceStateSettle (X := busy) 1 (after w [LogLivepush waiting_line])
   = Some (Return (), w1)
   ∧ lastDeviceStatus (this w1) = Some applied)
  ∧ ((∃ w', init (X := busy) 1 w = Some (Return (), w')) → accepted)
  ∧ ((∀ t lp, newLivepush (Collaborators := busy) t lp = None) → accepted →
     ∃ w', init (X := busy) 1 w = Some (Return (), w')).
Proof.
  intros w w1 accepted.
  assert (Ea : awaitDeviceStateSettle (X := busy) 1
                 (after w [LogLivepush waiting_line])
               = Some (Return (), w1)) by reflexivity.
  assert (Hst : lastDeviceStatus (this w1) = Some applied) by reflexivity.
  split; [done|].
  exact (init_returns_when_accepted (X := busy) 1 w w1 applied Ea Hst).
Defined.

Lemma init_sessions_ok_witness :
  let w := fresh both [web_task] in
  let w' := web_up both [web_task] in
  (sessions_ok (this w)
   ∧ init (X := busy) 1 w = Some (Throw (no_build_task "db"), w'))
  ∧ sessions_ok (this w').
Proof.
  intros w w'.
  assert (Hok : sessions_ok (this w)).
  { intros name c H. simpl in H. rewrite lookup_empty in H. discriminate H. }
  assert (E : init (X := busy) 1 w = Some (Throw (no_build_task "db"), w'))
    by reflexivity.
  split; [done|].
  exact (init_sessions_ok (X := busy) 1 w _ w' Hok E).
Defined.

Lemma init_watchers_witness :
  let w := fresh both [web_task; db_task] in
  let w' := web_up both [web_task; db_task] in
  init (X := busy) 1 w = Some (Return (), w')
  ∧ ∃ t, trace w' = trace w ++ t
         ∧ List.filter is_ChokidarWatch t
           = watched (X := busy) (this w) (services (composition (this w))).
Proof.
  intros w w'.
  assert (E : init (X := busy) 1 w = Some (Return (), w')) by reflexivity.
  split; [exact E|].
  exact (init_watchers (X := busy) 1 w w' E).
Defined.

Lemma handleFSEvent_no_session_witness :
  let updates := {| updated := ["schema.sql"]; added := []; deleted := [] |} in
  let w' := after watching [LogDebug (event_line (X := busy) change_schema)] in
  (classify change_schema = Return updates
   ∧ containers (this watching) !! "db" = None)
  ∧ ∃ msg,
      handleFSEvent (X := busy) change_schema watching
      = (Throw (TypeError msg), w')
      ∧ fire (X := busy) change_schema idle
        = {| world := w'; inflight := []; unhandled := [] ++ [TypeError msg] |}.
Proof.
  intros updates w'.
  assert (Hc : classify change_schema = Return updates) by reflexivity.
  assert (Hs : containers (this (world idle)) !! serviceName change_schema
               = None) by reflexivity.
  split; [done|].
  exact (handleFSEvent_no_session (X := busy) change_schema idle updates
           Hc Hs).
Defined.

Lemma fire_then_settle_witness :
  let updates := {| updated := ["app.js"]; added := []; deleted := [] |} in
  let x := execution_of (X := busy) change_app watching updates web_session in
  let l' := settle 0 (Return ()) (fire (X := busy) change_app idle) in
  (classify change_app = Return updates
   ∧ containers (this watching) !! "web" = Some web_session
   ∧ ex_actions x ≠ []
   ∧ inflight idle = [])
  ∧ world l' = snd (handleFSEvent (X := busy) change_app watching)
  ∧ inflight l' = []
  ∧ unhandled l'
    = [] ++ match fst (handleFSEvent (X := busy) change_app watching) with
            | Return _ => []
            | Throw e => [e]
            end.
Proof.
  intros updates x l'.
  assert (Hc : classify change_app = Return updates) by reflexivity.
  assert (Hs : containers (this (world idle)) !! serviceName change_app
               = Some web_session) by reflexivity.
  assert (Ha : ex_actions x ≠ []) by discriminate.
  assert (Hi : inflight idle = []) by reflexivity.
  split; [done|].
  exact (fire_then_settle (X := busy) change_app idle updates web_session
           Hc Hs Ha Hi).
Defined.

Lemma sessions_ok_watching : sessions_ok (this watching).
Proof.
  intros name c H. simpl in H.
  apply lookup_singleton_Some in H as [<- <-]. by repeat split.
Defined.

Lemma notify_fails_only_on_error_witness :
  let l' := tick (X := busy) idle (Notify "web" "error" "EMFILE") in
  sessions_ok (this (world idle))
  ∧ ("error" ≠ "error" → unhandled l' = unhandled idle)
  ∧ ("error" ∉ three_kinds → "error" ≠ "error" → l' = idle)
  ∧ (containers (this (world idle)) !! "web" = None → l' = idle)
  ∧ ("error" = "error" → is_Some (containers (this (world idle)) !! "web") →
     l' = {| world := world idle; inflight := inflight idle;
             unhandled := unhandled idle ++ [Rejection "EMFILE"] |}).
Proof.
  intros l'. split; [exact sessions_ok_watching|].
  exact (notify_fails_only_on_error (X := busy) idle "web" "error" "EMFILE"
           sessions_ok_watching).
Defined.

Lemma run_executions_ok_witness :
  let l' := run (X := busy)
              [Notify "web" "change" "app.js"; Notify "web" "add" "README.md";
               Settle 0 (Throw (Rejection "exit 1"))]
              idle in
  Forall (execution_ok (this (world idle))) (inflight idle)
  ∧ Forall (execution_ok (this (world l'))) (inflight l').
Proof.
  intros l'.
  assert (H : Forall (execution_ok (this (world idle))) (inflight idle))
    by constructor.
  split; [exact H|].
  exact (run_executions_ok (X := busy) _ idle H).
Defined.

Lemma notify_other_service_witness :
  sessions_ok (this (world idle))
  ∧ "web" ≠ "db"
  ∧ inflight_of "db" (tick (X := busy) idle (Notify "web" "change" "app.js"))
    = inflight_of "db" idle.
Proof.
  assert (Hne : "web" ≠ "db") by discriminate.
  split; [exact sessions_ok_watching|]. split; [exact Hne|].
  exact (notify_other_service (X := busy) idle "web" "change" "app.js" "db"
           sessions_ok_watching Hne).
Defined.
